(** * Exploit finder: the correlation pipeline

    A shallow embedding of
      - [expliot_finder/scraper/core/cve_scrapper.py]  ([SuitableCVEFinder]),
      - [expliot_finder/scraper/executor.py]           ([ExploitScrapperExecutor]),
      - [expliot_finder/main_executor.py]              ([ExploitFinderExecutor]),
    followed by the properties of the specification that were checked
    against it.

    Conventions.
    - A Python [str] is a [string]; a character is an [ascii], read as the
      code point of the same number (U+0000 .. U+00FF).
    - A Python [bytes] is a [list byte]; what [decode("UTF-8")] makes of it
      is the list of its code points.
    - A Python call either returns a value or raises: [pyresult].
    - Code that talks to the network runs in the monad [M], which threads
      the log of collaborator invocations and stops at the first raise.
    - A [for] loop over a list that its body mutates is a recursion on the
      iterator's index with fuel; a lemma per loop shows that the fuel
      handed to it is never exhausted before the iterator is. *)

From Stdlib Require Import String Ascii List Bool Arith ZArith Lia Sorted.
From Stdlib Require Import DecimalString Strings.Byte NArith.
Import ListNotations.

Local Open Scope string_scope.
Local Open Scope list_scope.

(* ===================================================================== *)
(** ** Python values and outcomes *)
(* ===================================================================== *)

Module Py.

(** The exceptions that the modelled code can meet. [ClientError] stands
    for whatever [aiohttp] raises on a connection, DNS or HTTP failure;
    [SearchError] for a failure inside the site finder; [MarkupError] is
    what the console raises on a cell whose markup it cannot read. *)
Inductive exn : Type :=
| AttributeError
| TypeError
| KeyError
| IndexError
| UnicodeDecodeError
| MarkupError (detail : string)
| ClientError (detail : string)
| SearchError (detail : string).

Inductive pyresult (A : Type) : Type :=
| Returns (a : A)
| Raises (e : exn).

Arguments Returns {A} a.
Arguments Raises {A} e.

Definition bind {A B} (r : pyresult A) (k : A -> pyresult B) : pyresult B :=
  match r with
  | Returns a => k a
  | Raises e => Raises e
  end.

(** [char.isdigit()]: the decimal digits, and in the Latin-1 range the
    superscripts two, three and one, which Python counts as digits. *)
Definition isdigit (c : ascii) : bool :=
  let n := nat_of_ascii c in
  (((48 <=? n) && (n <=? 57)) || (n =? 178) || (n =? 179) || (n =? 185))%nat.

(** [any(char.isdigit() for char in element)] *)
Fixpoint any_isdigit (element : string) : bool :=
  match element with
  | EmptyString => false
  | String char rest => isdigit char || any_isdigit rest
  end.

(** [word in text] on two [str]: [word] occurs in [text] as a contiguous
    run of characters. *)
Fixpoint str_in (word text : string) : bool :=
  String.prefix word text
  || match text with
     | EmptyString => false
     | String _ rest => str_in word rest
     end.

(** [re.split("-|_", s)]: the pattern matches exactly one character, a
    hyphen or an underscore, so the pieces are the maximal runs between
    such characters, empty runs included. *)
Definition is_separator (c : ascii) : bool :=
  (c =? "-")%char || (c =? "_")%char.

Fixpoint re_split (s : string) : list string :=
  match s with
  | EmptyString => [EmptyString]
  | String c rest =>
      if is_separator c then EmptyString :: re_split rest
      else match re_split rest with
           | piece :: pieces => String c piece :: pieces
           | [] => [String c EmptyString]
           end
  end.

(** [list.remove(x)]: drops the first item equal to [x]. *)
Fixpoint list_remove (x : string) (l : list string) : list string :=
  match l with
  | [] => []
  | y :: l' => if String.eqb y x then l' else y :: list_remove x l'
  end.

(** [l.insert(i, x)]: for [i] past the end Python appends. *)
Definition list_insert {A} (i : nat) (x : A) (l : list A) : list A :=
  firstn i l ++ x :: skipn i l.

(** [del l[i]]: there must be an item at [i]. *)
Definition list_del {A} (i : nat) (l : list A) : pyresult (list A) :=
  if (i <? length l)%nat then Returns (firstn i l ++ skipn (S i) l)
  else Raises IndexError.

End Py.

Import Py.

(* ===================================================================== *)
(** ** [bytes.decode("UTF-8")] *)
(* ===================================================================== *)

(** The strict decoder: a byte sequence is accepted when it is made of
    well-formed UTF-8 sequences only (no stray or missing continuation
    byte, no overlong form, no surrogate, nothing above U+10FFFF), and
    anything else raises [UnicodeDecodeError]. *)

Module Utf8.

Definition in_range (lo hi b : N) : bool := ((lo <=? b) && (b <=? hi))%N.

Definition continuation (b : N) : bool := in_range 128 191 b.

(** The six payload bits of a continuation byte, after [bits]. *)
Definition push (bits b : N) : N := N.lor (N.shiftl bits 6) (N.land b 63).

Fixpoint decode_values (bs : list N) : pyresult (list N) :=
  match bs with
  | [] => Returns []
  | b0 :: bs1 =>
      if (b0 <? 128)%N then
        Py.bind (decode_values bs1) (fun rest => Returns (b0 :: rest))
      else if in_range 194 223 b0 then
        match bs1 with
        | b1 :: bs2 =>
            if continuation b1
            then Py.bind (decode_values bs2) (fun rest =>
                 Returns (push (N.land b0 31) b1 :: rest))
            else Raises UnicodeDecodeError
        | _ => Raises UnicodeDecodeError
        end
      else if in_range 224 239 b0 then
        match bs1 with
        | b1 :: b2 :: bs3 =>
            if in_range (if (b0 =? 224)%N then 160 else 128)
                        (if (b0 =? 237)%N then 159 else 191) b1
               && continuation b2
            then Py.bind (decode_values bs3) (fun rest =>
                 Returns (push (push (N.land b0 15) b1) b2 :: rest))
            else Raises UnicodeDecodeError
        | _ => Raises UnicodeDecodeError
        end
      else if in_range 240 244 b0 then
        match bs1 with
        | b1 :: b2 :: b3 :: bs4 =>
            if in_range (if (b0 =? 240)%N then 144 else 128)
                        (if (b0 =? 244)%N then 143 else 191) b1
               && continuation b2 && continuation b3
            then Py.bind (decode_values bs4) (fun rest =>
                 Returns (push (push (push (N.land b0 7) b1) b2) b3 :: rest))
            else Raises UnicodeDecodeError
        | _ => Raises UnicodeDecodeError
        end
      else Raises UnicodeDecodeError
  end.

Definition decode (content : list byte) : pyresult (list N) :=
  decode_values (map Byte.to_N content).

End Utf8.

(* ===================================================================== *)
(** ** The parsed page: BeautifulSoup's tree and its navigation *)
(* ===================================================================== *)

(** [BeautifulSoup(markup, "html.parser")] is the library's: a [parser]
    stands for it, from the decoded markup to the tree it yields, and the
    code that calls it takes the parser it is to use. A [Tag] has a
    name, its [class] attribute as the list of class tokens the library
    keeps, its other attributes as strings, and its contents. Navigation
    follows the library: [.next_element]/[.previous_element] chain the
    nodes in document order and leave the root object out of the chain;
    a search without a name, as in [find_previous()], stops at tags only. *)

Module Bs4.

#[warnings="-register-all"]
Inductive node : Type :=
| Tag (name : string) (class_ : list string)
      (attrs : list (string * string)) (contents : list node)
| NavigableString (s : string).

Fixpoint size (n : node) : nat :=
  match n with
  | NavigableString _ => 1
  | Tag _ _ _ contents =>
      S ((fix total (cs : list node) : nat :=
            match cs with
            | [] => 0
            | c :: cs' => size c + total cs'
            end) contents)
  end.

(** [element.text]: the strings below the element, joined. *)
Fixpoint text (n : node) : string :=
  match n with
  | NavigableString s => s
  | Tag _ _ _ contents =>
      (fix join (cs : list node) : string :=
         match cs with
         | [] => EmptyString
         | c :: cs' => (text c ++ join cs')%string
         end) contents
  end.

(** The library's parser, as a function of the decoded markup. *)
Definition parser : Type := list N -> node.

(** A node of the document with the position of its parent. Positions
    count nodes in document order; the root object is at position 0. *)
Record element : Type := { el_node : node; el_parent : option nat }.

Fixpoint linearize (parent : option nat) (pos : nat) (n : node)
  : list element :=
  {| el_node := n; el_parent := parent |} ::
  match n with
  | NavigableString _ => []
  | Tag _ _ _ contents =>
      (fix children (cs : list node) (p : nat) : list element :=
         match cs with
         | [] => []
         | c :: cs' => linearize (Some pos) p c ++ children cs' (p + size c)
         end) contents (S pos)
  end.

Definition document : Type := list element.

Definition parse_tree (root : node) : document := linearize None 0 root.

Definition node_at (doc : document) (i : nat) : option node :=
  option_map el_node (nth_error doc i).

Definition is_tag (n : node) : bool :=
  match n with
  | Tag _ _ _ _ => true
  | NavigableString _ => false
  end.

Definition tag_named (name : string) (n : node) : bool :=
  match n with
  | Tag nm _ _ _ => String.eqb nm name
  | NavigableString _ => false
  end.

(** [class_="c"] matches a tag one of whose class tokens is [c]. *)
Definition has_class (c : string) (n : node) : bool :=
  match n with
  | Tag _ cl _ _ => existsb (String.eqb c) cl
  | NavigableString _ => false
  end.

Definition satisfies (doc : document) (p : node -> bool) (i : nat) : bool :=
  match node_at doc i with
  | Some n => p n
  | None => false
  end.

(** The generators the searches run over. *)
Definition descendants (doc : document) (i : nat) : list nat :=
  match node_at doc i with
  | Some n => seq (S i) (size n - 1)
  | None => []
  end.

Definition next_elements (doc : document) (i : nat) : list nat :=
  seq (S i) (length doc - S i).

Definition previous_elements (i : nat) : list nat :=
  rev (seq 1 (i - 1)).

(** A handle on a tag is its position; [None] is Python's [None]. *)
Definition find_all (doc : document) (name class_ : string) (i : nat)
  : list nat :=
  filter (satisfies doc (fun n => tag_named name n && has_class class_ n))
         (descendants doc i).

Definition find (doc : document) (name : string) (i : nat) : option nat :=
  List.find (satisfies doc (tag_named name)) (descendants doc i).

Definition find_next (doc : document) (name : string) (i : nat) : option nat :=
  List.find (satisfies doc (tag_named name)) (next_elements doc i).

Definition find_previous (doc : document) (i : nat) : option nat :=
  List.find (satisfies doc is_tag) (previous_elements i).

Definition find_parent (doc : document) (i : nat) : option nat :=
  match nth_error doc i with
  | Some e => el_parent e
  | None => None
  end.

Definition element_text (doc : document) (i : nat) : string :=
  match node_at doc i with
  | Some n => text n
  | None => EmptyString
  end.

(** [d[key]] on the attribute dictionary. *)
Fixpoint dict_get (key : string) (d : list (string * string)) : option string :=
  match d with
  | [] => None
  | (k, v) :: d' => if String.eqb k key then Some v else dict_get key d'
  end.

(** Method call on a value that may be [None]: [None] has no methods. *)
Definition call (receiver : option nat) (method : nat -> option nat)
  : pyresult (option nat) :=
  match receiver with
  | Some i => Returns (method i)
  | None => Raises AttributeError
  end.

(** [tag[key]] on a value that may be [None]: [None] is not
    subscriptable, and a tag without the attribute has no such key. *)
Definition getitem (doc : document) (receiver : option nat) (key : string)
  : pyresult string :=
  match receiver with
  | None => Raises TypeError
  | Some i =>
      match node_at doc i with
      | Some (Tag _ _ attrs _) =>
          match dict_get key attrs with
          | Some v => Returns v
          | None => Raises KeyError
          end
      | _ => Raises TypeError
      end
  end.

End Bs4.

Import Bs4.

(* ===================================================================== *)
(** ** cve_scrapper.py: the version tokenizer *)
(* ===================================================================== *)

Module CveScrapper.

(** The loop of [extracted_service_ver_in_nums]:
<<
      for element in parsed_service_ver:
          if not any(char.isdigit() for char in element):
              parsed_service_ver.remove(element)
>>
    The list iterator holds an index into the list being mutated: each
    round reads the item at the index, if there is one, and advances. *)
Fixpoint remove_loop (fuel index : nat) (parsed_service_ver : list string)
  : list string :=
  match nth_error parsed_service_ver index with
  | None => parsed_service_ver
  | Some element =>
      match fuel with
      | O => parsed_service_ver
      | S fuel' =>
          if negb (any_isdigit element)
          then remove_loop fuel' (S index) (list_remove element parsed_service_ver)
          else remove_loop fuel' (S index) parsed_service_ver
      end
  end.

Definition extracted_service_ver_in_nums (service_version : string)
  : list string :=
  let parsed_service_ver := re_split service_version in
  remove_loop (length parsed_service_ver) 0 parsed_service_ver.

(** [scrape_cve_table_page]. The chain of lookups from a summary cell
    is written call by call, as in the source. *)
Definition domain : string := "https://www.cvedetails.com".

Definition cve_a_tag (doc : document) (element : nat) : pyresult (option nat) :=
  Py.bind (Returns (find_previous doc element)) (fun t1 =>
  Py.bind (call t1 (find_previous doc)) (fun t2 =>
  Py.bind (call t2 (find_parent doc)) (fun t3 =>
  Py.bind (call t3 (find doc "td")) (fun t4 =>
  Py.bind (call t4 (find_next doc "td")) (fun t5 =>
  call t5 (find doc "a")))))).

Definition matches (doc : document) (parsed_service_ver : list string)
           (element : nat) : bool :=
  existsb (fun word => str_in word (element_text doc element))
          parsed_service_ver.

Fixpoint scrape_cells (doc : document) (cells : list nat)
         (parsed_service_ver : list string) : pyresult (option string) :=
  match cells with
  | [] => Returns None
  | element :: cells' =>
      if matches doc parsed_service_ver element
      then Py.bind (cve_a_tag doc element) (fun a_tag =>
           Py.bind (getitem doc a_tag "href") (fun href =>
           Returns (Some (domain ++ href)%string)))
      else scrape_cells doc cells' parsed_service_ver
  end.

Definition summary_cells (doc : document) : list nat :=
  find_all doc "td" "cvesummarylong" 0.

Definition scrape_cve_table_page (BeautifulSoup : parser)
           (page_content : list byte) (parsed_service_ver : list string)
  : pyresult (option string) :=
  Py.bind (Utf8.decode page_content) (fun markup =>
  let soup := parse_tree (BeautifulSoup markup) in
  scrape_cells soup (summary_cells soup) parsed_service_ver).

End CveScrapper.

Import CveScrapper.

(* ===================================================================== *)
(** ** The network: collaborators and the monad of effectful code *)
(* ===================================================================== *)

(** [GoogleSitesFinder.search_for_pages] and the [aiohttp] session are the
    program's two doors to the network. A [world] fixes what each answers,
    possibly depending on everything asked before; each call is logged.
    The world also holds the HTML parser the program finds installed. *)

Module Net.

Inductive event : Type :=
| SearchForPages (service_version domain : string)
| HttpGet (url : string).

Definition log : Type := list event.

Record world : Type := {
  search_reply : log -> string -> string -> pyresult (list string);
  get_reply : log -> string -> pyresult (list byte);
  html_parser : parser
}.

Definition M (A : Type) : Type := log -> pyresult A * log.

Definition ret {A} (a : A) : M A := fun l => (Returns a, l).

Definition bind {A B} (m : M A) (k : A -> M B) : M B :=
  fun l =>
    match m l with
    | (Returns a, l') => k a l'
    | (Raises e, l') => (Raises e, l')
    end.

Definition lift {A} (r : pyresult A) : M A := fun l => (r, l).

(** [await asyncio.gather(a, b)]: both coroutines are started and their
    results paired. The model runs them one after the other, each to its
    end, and when both raise it hands on the exception of the first. How
    their steps interleave in time is not represented: which of two
    exceptions comes first, and what a cancelled coroutine no longer
    does, are outside the model, and no statement below rests on them. *)
Definition gather {A B} (a : M A) (b : M B) : M (A * B) :=
  fun l =>
    let (ra, l1) := a l in
    let (rb, l2) := b l1 in
    (match ra, rb with
     | Returns x, Returns y => Returns (x, y)
     | Raises e, _ => Raises e
     | _, Raises e => Raises e
     end, l2).

Definition search_for_pages (w : world) (service_version domain : string)
  : M (list string) :=
  fun l => (search_reply w l service_version domain,
            l ++ [SearchForPages service_version domain]).

Definition session_get (w : world) (url : string) : M (list byte) :=
  fun l => (get_reply w l url, l ++ [HttpGet url]).

End Net.

Import Net.

Declare Scope py_scope.
Delimit Scope py_scope with py.
Notation "x <- m ;; k" := (Net.bind m (fun x => k))
  (at level 61, m at next level, right associativity) : py_scope.
Notation "' pat <- m ;; k" := (Net.bind m (fun x => match x with pat => k end))
  (at level 61, pat pattern, m at next level, right associativity) : py_scope.

(* ===================================================================== *)
(** ** cve_scrapper.py and executor.py: the two searches *)
(* ===================================================================== *)

Module Executor.

Local Open Scope py_scope.

(** [SuitableCVEFinder.get_page_content] *)
Definition get_page_content (w : world) (cve_table_url : string)
  : M (list byte) :=
  session_get w cve_table_url.

(** [SuitableCVEFinder.find_suitable_cve] *)
Definition find_suitable_cve (w : world) (cve_table_url service_version : string)
  : M (option (list string)) :=
  let parsed_service_ver := extracted_service_ver_in_nums service_version in
  page_content <- get_page_content w cve_table_url ;;
  suitable_cve <- lift (scrape_cve_table_page (html_parser w) page_content
                                              parsed_service_ver) ;;
  match suitable_cve with
  | Some (String c url) => ret (Some [String c url])
  | Some EmptyString | None => ret None
  end.

(** [ExploitScrapperExecutor.scrap_exploits] *)
Definition scrap_exploits (w : world) (service_version : string)
  : M (list string) :=
  search_for_pages w service_version "https://www.exploit-db.com".

(** [ExploitScrapperExecutor.scrap_cve] *)
Definition scrap_cve (w : world) (service_version : string)
  : M (option (list string)) :=
  cve_table_url <- search_for_pages w service_version "https://www.cvedetails.com" ;;
  match cve_table_url with
  | [] => ret (Some cve_table_url)
  | first_url :: _ => find_suitable_cve w first_url service_version
  end.

(** [ExploitScrapperExecutor.run_web_scrappers] *)
Definition run_web_scrappers (w : world) (service_version : string)
  : M (option (list string) * list string) :=
  '(cve_urls, exploits_urls) <-
     gather (scrap_cve w service_version) (scrap_exploits w service_version) ;;
  ret (cve_urls, exploits_urls).

End Executor.

Import Executor.

(* ===================================================================== *)
(** ** main_executor.py: merging the links into the scan result *)
(* ===================================================================== *)

Module MainExecutor.

Local Open Scope py_scope.

(** What the scanner hands over for one open port. *)
Record ServiceRecord : Type := {
  port_number : Z;
  service_name : string;
  service_version : string
}.

(** The [Vulnerability] named tuple. Its first three fields have the
    names of the scanner's; they are written with a [v_] here because a
    projection name can be declared once only. *)
Record Vulnerability : Type := {
  v_port_number : Z;
  v_service_name : string;
  v_service_version : string;
  cve_link : string;
  exploit_link : string
}.

(** While the loop runs, the list under ["ports_services"] holds items
    of both kinds. *)
Inductive entry : Type :=
| Scanned (r : ServiceRecord)
| Correlated (v : Vulnerability).

Definition entry_port_number (e : entry) : Z :=
  match e with
  | Scanned r => port_number r
  | Correlated v => v_port_number v
  end.

Definition entry_service_name (e : entry) : string :=
  match e with
  | Scanned r => service_name r
  | Correlated v => v_service_name v
  end.

Definition entry_service_version (e : entry) : string :=
  match e with
  | Scanned r => service_version r
  | Correlated v => v_service_version v
  end.

(** [urls[0] if urls else "Unknown"] *)
Definition first_or_unknown (urls : option (list string)) : string :=
  match urls with
  | Some (url :: _) => url
  | _ => "Unknown"
  end.

(** [if urls: del urls[0]]; on a list that is never [None] this is
    [tl]. *)
Definition drop_first (urls : option (list string)) : option (list string) :=
  match urls with
  | Some (_ :: urls') => Some urls'
  | _ => urls
  end.

(** The loop of [find_exploit]. [enumerate] walks the very list that the
    body changes by [insert] and [del]; [cve_urls] and [exploit_urls]
    are bound once before the loop and rebound only when a search runs.
    [FindExploit] is the name under which the scraper package exports
    [ExploitScrapperExecutor]. *)
Fixpoint find_exploit_loop (w : world) (fuel index_ : nat)
         (ports_services : list entry)
         (cve_urls : option (list string)) (exploit_urls : list string)
  : M (list entry) :=
  match nth_error ports_services index_ with
  | None => ret ports_services
  | Some collected_info =>
      match fuel with
      | O => ret ports_services
      | S fuel' =>
          '(cve_urls, exploit_urls) <-
             (if negb (String.eqb (entry_service_version collected_info) "Unknown")
              then run_web_scrappers w (entry_service_version collected_info)
              else ret (cve_urls, exploit_urls)) ;;
          let port_service_vulnerability :=
            {| v_port_number := entry_port_number collected_info;
               v_service_name := entry_service_name collected_info;
               v_service_version := entry_service_version collected_info;
               cve_link := first_or_unknown cve_urls;
               exploit_link := first_or_unknown (Some exploit_urls) |} in
          let ports_services :=
            list_insert (index_ + 1) (Correlated port_service_vulnerability)
                        ports_services in
          ports_services <- lift (list_del index_ ports_services) ;;
          find_exploit_loop w fuel' (S index_) ports_services
            (drop_first cve_urls)
            (tl exploit_urls)
      end
  end.

Definition find_exploit (w : world) (scan_result : list ServiceRecord)
  : M (list entry) :=
  let ports_services := map Scanned scan_result in
  find_exploit_loop w (length ports_services) 0 ports_services (Some []) [].

End MainExecutor.

Import MainExecutor.

(* ===================================================================== *)
(** ** Sample pages *)
(* ===================================================================== *)

Module Samples.

(** Each sample page is given twice: as the markup that is fetched, and
    as the tree that the library's parser builds from that markup. The
    markup is plain ASCII, so its bytes are its code points. *)

Definition td (class_ : list string) (contents : list node) : node :=
  Tag "td" class_ [] contents.

Definition listing_row (num cve score : string) : node :=
  Tag "tr" ["srrowns"] []
      [ td ["num"] [NavigableString num];
        Tag "td" [] [("nowrap", "")]
            [Tag "a" [] [("href", ("/cve/" ++ cve ++ "/")%string)] [NavigableString cve]];
        td [] [NavigableString score] ].

Definition listing_row_html (num cve score : string) : string :=
  ("<tr class='srrowns'><td class='num'>" ++ num ++ "</td>"
   ++ "<td nowrap=''><a href='/cve/" ++ cve ++ "/'>" ++ cve ++ "</a></td>"
   ++ "<td>" ++ score ++ "</td></tr>")%string.

Definition summary_row (summary : string) : node :=
  Tag "tr" [] []
      [ Tag "td" ["cvesummarylong"] [("colspan", "20")]
            [NavigableString summary] ].

Definition summary_row_html (summary : string) : string :=
  ("<tr><td class='cvesummarylong' colspan='20'>" ++ summary ++ "</td></tr>")%string.

Definition page (rows : list node) : node :=
  Tag "[document]" [] [] [Tag "table" ["searchresults"] [] rows].

Definition page_html (rows : list string) : string :=
  ("<table class='searchresults'>" ++ String.concat "" rows ++ "</table>")%string.

(** Two advisories in the listing's layout. *)
Definition listing : node :=
  page [ listing_row "1" "CVE-2002-1646" "7.5"; summary_row "no match here";
         listing_row "2" "CVE-2016-6210" "5.0"; summary_row "contains 7.2 version" ].

Definition listing_html : string :=
  page_html [ listing_row_html "1" "CVE-2002-1646" "7.5";
              summary_row_html "no match here";
              listing_row_html "2" "CVE-2016-6210" "5.0";
              summary_row_html "contains 7.2 version" ].

(** The listing of the end-to-end scenario: one advisory, whose summary
    names the version 2.4.49. *)
Definition apache_listing : node :=
  page [ listing_row "1" "CVE-2021-41773" "4.3";
         summary_row "A flaw was found in Apache HTTP Server 2.4.49." ].

Definition apache_listing_html : string :=
  page_html [ listing_row_html "1" "CVE-2021-41773" "4.3";
              summary_row_html "A flaw was found in Apache HTTP Server 2.4.49." ].

(** A page whose only summary cell stands alone in the document. *)
Definition bare_cell : node :=
  Tag "[document]" [] []
      [ Tag "td" ["cvesummarylong"] [] [NavigableString "OpenSSH 7.2 allows ..."] ].

Definition bare_cell_html : string :=
  "<td class='cvesummarylong'>OpenSSH 7.2 allows ...</td>".

(** The listing's layout, but the cell that should hold the link holds
    plain text. *)
Definition no_anchor : node :=
  page [ Tag "tr" ["srrowns"] []
             [ td ["num"] [NavigableString "1"];
               td [] [NavigableString "CVE-2016-6210"];
               td [] [NavigableString "5.0"] ];
         summary_row "contains 7.2 version" ].

Definition no_anchor_html : string :=
  page_html [ "<tr class='srrowns'><td class='num'>1</td><td>CVE-2016-6210</td><td>5.0</td></tr>";
              summary_row_html "contains 7.2 version" ].

(** A page without summary cells. *)
Definition no_cells : node :=
  Tag "[document]" [] [] [Tag "p" [] [] [NavigableString "No results."]].

Definition no_cells_html : string := "<p>No results.</p>".

(** The bytes of a page sent as Latin-1: the byte E9 (e with acute
    accent) followed by an ASCII letter is no UTF-8 sequence. *)
Definition latin1_page : list byte :=
  list_byte_of_string "<p>caf" ++ [xe9] ++ list_byte_of_string " 7.2</p>".

Definition code_points (markup : string) : list N :=
  map Byte.to_N (list_byte_of_string markup).

Fixpoint same_markup (a b : list N) : bool :=
  match a, b with
  | [], [] => true
  | x :: a', y :: b' => (x =? y)%N && same_markup a' b'
  | _, _ => false
  end.

(** The parser on the sample pages; any other markup is taken for an
    empty document. *)
Definition html_parser : parser :=
  fun markup =>
    match List.find (fun sample => same_markup markup (code_points (fst sample)))
                    [ (listing_html, listing);
                      (apache_listing_html, apache_listing);
                      (bare_cell_html, bare_cell);
                      (no_anchor_html, no_anchor);
                      (no_cells_html, no_cells) ] with
    | Some sample => snd sample
    | None => Tag "[document]" [] [] []
    end.

End Samples.


(* ===================================================================== *)
(** ** Sample worlds and scan results *)
(* ===================================================================== *)

Module Scenario.

(** The site finder knows two exploit pages for every service and no
    advisory listing; nothing is ever fetched. *)
Definition two_exploits : world := {|
  search_reply := fun _ _ domain =>
    if String.eqb domain "https://www.exploit-db.com"
    then Returns [ "https://www.exploit-db.com/exploits/50383";
                   "https://www.exploit-db.com/exploits/50406" ]
    else Returns [];
  get_reply := fun _ _ => Raises (ClientError "unreachable");
  html_parser := Samples.html_parser
|}.

(** The site finder knows one listing and one exploit page; fetching the
    listing yields the bytes of [markup]. *)
Definition one_listing (markup : string) : world := {|
  search_reply := fun _ _ domain =>
    if String.eqb domain "https://www.exploit-db.com"
    then Returns ["https://www.exploit-db.com/exploits/40136"]
    else Returns ["https://www.cvedetails.com/vulnerability-list/openssh.html"];
  get_reply := fun _ _ => Returns (list_byte_of_string markup);
  html_parser := Samples.html_parser
|}.

(** The listing cannot be fetched. *)
Definition offline : world := {|
  search_reply := fun _ _ domain =>
    if String.eqb domain "https://www.exploit-db.com"
    then Returns []
    else Returns ["https://www.cvedetails.com/vulnerability-list/openssh.html"];
  get_reply := fun _ _ => Raises (ClientError "connection refused");
  html_parser := Samples.html_parser
|}.

(** The listing comes in another encoding than UTF-8. *)
Definition latin1_listing : world := {|
  search_reply := fun _ _ domain =>
    if String.eqb domain "https://www.exploit-db.com"
    then Returns []
    else Returns ["https://www.cvedetails.com/vulnerability-list/openssh.html"];
  get_reply := fun _ _ => Returns Samples.latin1_page;
  html_parser := Samples.html_parser
|}.

Definition apache : ServiceRecord :=
  {| port_number := 80; service_name := "apache"; service_version := "2.4.49" |}.

Definition ssh_unknown : ServiceRecord :=
  {| port_number := 22; service_name := "ssh"; service_version := "Unknown" |}.

Definition openssh : ServiceRecord :=
  {| port_number := 22; service_name := "ssh"; service_version := "OpenSSH_7.2" |}.

End Scenario.

(* ===================================================================== *)
(** ** Vocabulary of the statements *)
(* ===================================================================== *)

Module Vocabulary.

(** The [href] that the chain of lookups reaches from a summary cell:
    the anchor found by [cve_a_tag], subscripted with ["href"]. *)
Definition advisory_href (doc : document) (element : nat) : pyresult string :=
  Py.bind (cve_a_tag doc element) (fun a_tag => getitem doc a_tag "href").

(** A correlated record carries over a scanned record. *)
Definition carries_over (r : ServiceRecord) (v : Vulnerability) : Prop :=
  v_port_number v = port_number r
  /\ v_service_name v = service_name r
  /\ v_service_version v = service_version r.

(** An advisory link is ["Unknown"] or lies under the advisory domain. *)
Definition advisory_link_ok (link : string) : Prop :=
  link = "Unknown" \/ String.prefix domain link = true.

(** The named tuple that one round of [find_exploit] builds. *)
Definition correlate (collected_info : entry)
           (cve_urls : option (list string)) (exploit_urls : list string)
  : Vulnerability :=
  {| v_port_number := entry_port_number collected_info;
     v_service_name := entry_service_name collected_info;
     v_service_version := entry_service_version collected_info;
     cve_link := first_or_unknown cve_urls;
     exploit_link := first_or_unknown (Some exploit_urls) |}.

(** What the merge guarantees of the record written for a scanned one. *)
Definition merged (r : ServiceRecord) (v : Vulnerability) : Prop :=
  carries_over r v
  /\ advisory_link_ok (cve_link v)
  /\ (service_version r = "Unknown" -> cve_link v = "Unknown").

(** Between two rounds nothing is left of the advisory search. *)
Definition spent (cve_urls : option (list string)) : Prop :=
  cve_urls = None \/ cve_urls = Some [].

End Vocabulary.

Import Vocabulary.

(* ===================================================================== *)
(** ** main_executor.py: the executor object, its table and its call *)
(* ===================================================================== *)

(** A [dict] with [str] keys: its items in insertion order. A dictionary
    holds a key once; [unique_keys] says so where a statement needs it. *)

Module PyDict.

Definition dict (V : Type) : Type := list (string * V).

(** [d[key]], [None] standing for the [KeyError]. *)
Fixpoint get {V} (key : string) (d : dict V) : option V :=
  match d with
  | [] => None
  | (k, v) :: d' => if String.eqb k key then Some v else get key d'
  end.

(** [d[key] = v]: an existing key keeps its place. *)
Fixpoint set {V} (key : string) (v : V) (d : dict V) : dict V :=
  match d with
  | [] => [(key, v)]
  | (k, v') :: d' =>
      if String.eqb k key then (k, v) :: d' else (k, v') :: set key v d'
  end.

Definition keys {V} (d : dict V) : list string := map fst d.

Definition unique_keys {V} (d : dict V) : Prop := NoDup (keys d).

End PyDict.

(** [rich.table.Table], as far as the program drives it: the columns
    added and the rows added, in the order of the calls. What the library
    draws from them is not represented. *)

Module Rich.

Record Column : Type := {
  header : string;
  justify : string;
  header_style : option string
}.

Record Table : Type := {
  show_lines : bool;
  columns : list Column;
  rows : list (list string)
}.

Definition add_column (t : Table) (c : Column) : Table :=
  {| show_lines := show_lines t; columns := columns t ++ [c]; rows := rows t |}.

Definition add_row (t : Table) (cells : list string) : Table :=
  {| show_lines := show_lines t; columns := columns t; rows := rows t ++ [cells] |}.

End Rich.

Module ExploitFinder.

Import PyDict Rich.

(** [str(n)] for an [int]. *)
Definition str_of_int (n : Z) : string := NilZero.string_of_int (Z.to_int n).

(** The three slots of an [ExploitFinderExecutor]. The scanner's mapping
    is followed under the key the program reads, whose value is the list
    of records. *)
Record executor : Type := {
  _filtered_kw : dict string;
  founded_vulnerabilities : dict (list entry);
  output_table : Table
}.

(** The setter of [filtered_kw]:
    [{k: v for k, v in cli_kwargs.items() if v is not None}].
    An option the user left out comes as [None]. *)
Fixpoint not_none {V} (cli_kwargs : dict (option V)) : dict V :=
  match cli_kwargs with
  | [] => []
  | (k, Some v) :: items => (k, v) :: not_none items
  | (k, None) :: items => not_none items
  end.

Definition set_filtered_kw (self : executor) (cli_kwargs : dict (option string))
  : executor :=
  {| _filtered_kw := not_none cli_kwargs;
     founded_vulnerabilities := founded_vulnerabilities self;
     output_table := output_table self |}.

(** The getter of [filtered_kw]. *)
Definition filtered_kw (self : executor) : dict string := _filtered_kw self.

(** [__init__] *)
Definition __init__ : executor :=
  set_filtered_kw
    {| _filtered_kw := [];
       founded_vulnerabilities := [];
       output_table := {| show_lines := true; columns := []; rows := [] |} |}
    [].

(** [scan_selected_device]. The scanner is a collaborator: it is given
    the filtered keyword arguments and returns its mapping, or raises. *)
Definition scan_selected_device
           (scanner : dict string -> pyresult (dict (list ServiceRecord)))
           (self : executor) : pyresult executor :=
  Py.bind (scanner (filtered_kw self)) (fun found =>
  Returns {| _filtered_kw := _filtered_kw self;
             founded_vulnerabilities :=
               map (fun item => (fst item, map Scanned (snd item))) found;
             output_table := output_table self |}).

(** [find_exploit] as a method: the list is looked up in the mapping and
    rewritten where it lies. *)
Definition find_exploit_method (w : world) (self : executor) : M executor :=
  match get "ports_services" (founded_vulnerabilities self) with
  | None => lift (Raises KeyError)
  | Some ports_services =>
      Net.bind
        (find_exploit_loop w (length ports_services) 0 ports_services (Some []) [])
        (fun rewritten =>
           ret {| _filtered_kw := _filtered_kw self;
                  founded_vulnerabilities :=
                    set "ports_services" rewritten (founded_vulnerabilities self);
                  output_table := output_table self |})
  end.

(** The five columns of [create_output_tb]. *)
Definition output_columns : list Column :=
  [ {| header := "PORT"; justify := "center"; header_style := None |};
    {| header := "SERVICE NAME"; justify := "center"; header_style := None |};
    {| header := "SERVICE VERSION"; justify := "center"; header_style := None |};
    {| header := "VULNERABILITY INFORMATION"; justify := "center";
       header_style := Some "yellow" |};
    {| header := "FOUNDED EXPLOIT"; justify := "center";
       header_style := Some "red" |} ].

(** One round of the loop of [create_output_tb]. A record as the scanner
    left it has no [cve_link]. *)
Definition output_row (row : entry) : pyresult (list string) :=
  match row with
  | Correlated v =>
      Returns [ str_of_int (v_port_number v); v_service_name v;
                v_service_version v; cve_link v; exploit_link v ]
  | Scanned _ => Raises AttributeError
  end.

Fixpoint add_rows (t : Table) (ports_services : list entry) : pyresult Table :=
  match ports_services with
  | [] => Returns t
  | row :: ports_services' =>
      Py.bind (output_row row) (fun cells =>
      add_rows (add_row t cells) ports_services')
  end.

(** [create_output_tb] *)
Definition create_output_tb (self : executor) : pyresult executor :=
  let t := fold_left add_column output_columns (output_table self) in
  match get "ports_services" (founded_vulnerabilities self) with
  | None => Raises KeyError
  | Some ports_services =>
      Py.bind (add_rows t ports_services) (fun t' =>
      Returns {| _filtered_kw := _filtered_kw self;
                 founded_vulnerabilities := founded_vulnerabilities self;
                 output_table := t' |})
  end.

(** [show_final_output]: the table is handed to [Console().print], the
    library's, which reads every cell as console markup and raises on a
    cell it cannot read. [console_print] stands for it. The value is the
    table that was printed. *)
Definition show_final_output (console_print : Table -> pyresult unit)
           (self : executor) : pyresult Table :=
  Py.bind (console_print (output_table self)) (fun _ =>
  Returns (output_table self)).

(** [__call__]: scan, search, fill the table, print. *)
Definition __call__ (w : world)
           (scanner : dict string -> pyresult (dict (list ServiceRecord)))
           (console_print : Table -> pyresult unit)
           (self : executor) : M Table :=
  Net.bind (lift (scan_selected_device scanner self)) (fun self1 =>
  Net.bind (find_exploit_method w self1) (fun self2 =>
  Net.bind (lift (create_output_tb self2)) (fun self3 =>
  lift (show_final_output console_print self3)))).

End ExploitFinder.

Import ExploitFinder.

(* ===================================================================== *)
(** ** More vocabulary *)
(* ===================================================================== *)

Module Wording.

(** No two neighbours in the list are both without a digit. *)
Fixpoint no_two_wordy_neighbours (pieces : list string) : Prop :=
  match pieces with
  | a :: (b :: _) as rest =>
      (any_isdigit a = true \/ any_isdigit b = true)
      /\ no_two_wordy_neighbours rest
  | _ => True
  end.

(** A string without hyphen and underscore. *)
Definition separator_free (s : string) : Prop :=
  forall c, In c (list_ascii_of_string s) -> is_separator c = false.

(** The record written for a scanned record when nothing is known. *)
Definition unknown_links (r : ServiceRecord) : Vulnerability :=
  {| v_port_number := port_number r;
     v_service_name := service_name r;
     v_service_version := service_version r;
     cve_link := "Unknown";
     exploit_link := "Unknown" |}.

(** The links of a record are those of a search for its own version. *)
Definition links_of_own_search (w : world) (r : ServiceRecord) (v : Vulnerability)
  : Prop :=
  exists l0 l1 cve_urls exploit_urls,
    run_web_scrappers w (service_version r) l0
    = (Returns (cve_urls, exploit_urls), l1)
    /\ cve_link v = first_or_unknown cve_urls
    /\ exploit_link v = first_or_unknown (Some exploit_urls).

(** The row of the table for a correlated record. *)
Definition row_of (v : Vulnerability) : list string :=
  [ str_of_int (v_port_number v); v_service_name v; v_service_version v;
    cve_link v; exploit_link v ].






(** [table] is the table of [self] with the five columns added and, after
    its rows, one row per scanned record, in the order of the scan, that
    starts with the port number in decimal, the service name and the
    service version of the record and ends with two links. *)
Definition lists_the_scan (self : executor) (scan_result : list ServiceRecord)
           (table : Rich.Table) : Prop :=
  Rich.columns table = Rich.columns (output_table self) ++ output_columns
  /\ exists new_rows,
       Rich.rows table = Rich.rows (output_table self) ++ new_rows
       /\ Forall2 (fun r row =>
                     exists advisory exploit,
                       row = [ str_of_int (port_number r); service_name r;
                               service_version r; advisory; exploit ])
                  scan_result new_rows.

(** A console that prints whatever it is given. *)
Definition lenient_console (table : Rich.Table) : pyresult unit := Returns tt.

(** A console that refuses a table with a cell that holds a closing tag
    of console markup. *)
Definition strict_console (table : Rich.Table) : pyresult unit :=
  if existsb (existsb (str_in "[/")) (Rich.rows table)
  then Raises (MarkupError "closing tag has nothing to close")
  else Returns tt.

(** The site finder never knows more than one exploit page. *)
Definition at_most_one_exploit (w : world) : Prop :=
  forall l version urls,
    search_reply w l version "https://www.exploit-db.com" = Returns urls ->
    length urls <= 1.

End Wording.

Import Wording.


(* ===================================================================== *)
(** ** Facts about strings and lists *)
(* ===================================================================== *)

Section ListFacts.

Lemma prefix_app (a b : string) : String.prefix a (a ++ b)%string = true.
Proof.
  induction a as [|c a IH]; simpl.
  - now destruct b.
  - destruct (ascii_dec c c) as [_|ne]; [exact IH | now elim ne].
Qed.



(** The pieces of a split hold no hyphen and no underscore. *)
Lemma re_split_no_separator (s piece : string) :
  In piece (re_split s) ->
  forall c, In c (list_ascii_of_string piece) -> is_separator c = false.
Proof.
  revert piece. induction s as [|d s IH]; intros piece Hin c Hc.
  - destruct Hin as [<-|[]]. destruct Hc.
  - cbn [re_split] in Hin. destruct (is_separator d) eqn:Hd.
    + destruct Hin as [<-|Hin]; [destruct Hc | eapply IH; eassumption].
    + destruct (re_split s) as [|p ps].
      * destruct Hin as [<-|[]]. destruct Hc as [<-|[]]. exact Hd.
      * destruct Hin as [<-|Hin].
        -- destruct Hc as [<-|Hc]; [exact Hd|].
           apply (IH p); [now left | exact Hc].
        -- apply (IH piece); [now right | exact Hc].
Qed.

Lemma list_remove_length (x : string) (l : list string) :
  length (list_remove x l) <= length l.
Proof.
  induction l as [|y l IH]; simpl; [lia|].
  destruct (String.eqb y x); simpl; lia.
Qed.

Lemma list_remove_incl (x : string) (l : list string) :
  incl (list_remove x l) l.
Proof.
  induction l as [|y l IH]; simpl; [easy|].
  destruct (String.eqb y x).
  - apply incl_tl, incl_refl.
  - intros z [->|Hz]; [now left | right; now apply IH].
Qed.

Context {A : Type}.

Lemma list_insert_length (i : nat) (x : A) (l : list A) :
  length (list_insert i x l) = S (length l).
Proof.
  unfold list_insert.
  rewrite length_app; simpl.
  rewrite length_firstn, length_skipn. lia.
Qed.

Lemma firstn_skipn_after_insert (done todo : list A) (old new : A) :
  let l := list_insert (length done + 1) new (done ++ old :: todo) in
  firstn (length done) l ++ skipn (S (length done)) l = (done ++ [new]) ++ todo.
Proof.
  induction done as [|a done IH]; simpl.
  - reflexivity.
  - unfold list_insert in *. simpl in *. f_equal. exact IH.
Qed.

(** The two list operations of [find_exploit], taken together, put the
    new item in the place of the item at the index. *)
Lemma insert_then_del (done todo : list A) (old new : A) :
  list_del (length done)
           (list_insert (length done + 1) new (done ++ old :: todo))
  = Returns ((done ++ [new]) ++ todo).
Proof.
  unfold list_del.
  assert (Hin : (length done
                 <? length (list_insert (length done + 1) new (done ++ old :: todo)))%nat
                = true).
  { apply Nat.ltb_lt. rewrite list_insert_length, length_app. simpl. lia. }
  rewrite Hin. f_equal. apply firstn_skipn_after_insert.
Qed.

Lemma app_same_length (x1 x2 y1 y2 : list A) :
  length x1 = length y1 -> x1 ++ x2 = y1 ++ y2 -> x1 = y1 /\ x2 = y2.
Proof.
  revert y1. induction x1 as [|a x1 IH]; intros [|b y1] Hlen Heq;
    try discriminate; simpl in *.
  - now split.
  - injection Heq as -> Heq. injection Hlen as Hlen.
    destruct (IH y1 Hlen Heq) as [-> ->]. now split.
Qed.

Lemma nth_error_middle (l : list A) (i : nat) (old : A) :
  nth_error l i = Some old ->
  exists done todo, l = done ++ old :: todo /\ length done = i.
Proof. apply nth_error_split. Qed.

End ListFacts.

(* ===================================================================== *)
(** ** The version tokenizer *)
(* ===================================================================== *)

Section Tokenizer.

(** More fuel than the list is long changes nothing: the iterator is
    exhausted first. *)
Lemma remove_loop_fuel (fuel : nat) :
  forall (index extra : nat) (l : list string),
    length l <= fuel + index ->
    remove_loop (fuel + extra) index l = remove_loop fuel index l.
Proof.
  induction fuel as [|fuel IH]; intros index extra l Hlen.
  - assert (Hnone : nth_error l index = None)
      by (apply nth_error_None; lia).
    destruct extra; simpl; now rewrite Hnone.
  - simpl. destruct (nth_error l index) as [element|] eqn:Hnth; [|reflexivity].
    destruct (negb (any_isdigit element)).
    + apply IH. pose proof (list_remove_length element l). lia.
    + apply IH. lia.
Qed.

Lemma remove_loop_incl (fuel : nat) :
  forall (index : nat) (l : list string), incl (remove_loop fuel index l) l.
Proof.
  induction fuel as [|fuel IH]; intros index l; simpl.
  - destruct (nth_error l index); apply incl_refl.
  - destruct (nth_error l index) as [element|]; [|apply incl_refl].
    destruct (negb (any_isdigit element)).
    + eapply incl_tran; [apply IH | apply list_remove_incl].
    + apply IH.
Qed.

Lemma tokens_are_pieces (service_version token : string) :
  In token (extracted_service_ver_in_nums service_version) ->
  In token (re_split service_version).
Proof. apply remove_loop_incl. Qed.

End Tokenizer.

(* ===================================================================== *)
(** ** The page model *)
(* ===================================================================== *)

Section PageModel.








End PageModel.

(* ===================================================================== *)
(** ** The advisory table extractor *)
(* ===================================================================== *)

Section Extractor.

Variable doc : document.
Variable tokens : list string.

(** The loop over the summary cells stops at the first cell that
    matches, and only the chain of lookups from that cell decides the
    outcome. *)
Lemma scrape_cells_find (cells : list nat) :
  scrape_cells doc cells tokens =
  match List.find (matches doc tokens) cells with
  | Some element =>
      Py.bind (advisory_href doc element)
              (fun href => Returns (Some (domain ++ href)%string))
  | None => Returns None
  end.
Proof.
  induction cells as [|element cells IH]; simpl; [reflexivity|].
  destruct (matches doc tokens element); [|exact IH].
  unfold advisory_href.
  destruct (cve_a_tag doc element); reflexivity.
Qed.


Lemma find_no_match (cells : list nat) :
  (forall c, In c cells -> matches doc tokens c = false) ->
  List.find (matches doc tokens) cells = None.
Proof.
  intros Hall.
  induction cells as [|c cells IH]; simpl; [reflexivity|].
  rewrite (Hall c (or_introl eq_refl)).
  apply IH. intros c' Hc'. apply Hall. now right.
Qed.


End Extractor.

Lemma no_token_no_match (doc : document) (element : nat) :
  matches doc [] element = false.
Proof. reflexivity. Qed.

(* ===================================================================== *)
(** ** Decoding, and the extractor in the words of the statements *)
(* ===================================================================== *)

Section Decoding.




Variable BeautifulSoup : parser.
Variable page_content : list byte.
Variable tokens : list string.



End Decoding.

Section InWords.

Variable root : node.
Variable tokens : list string.









End InWords.

(** The extractor's outcome, case by case. *)
Section Outcome.

Variable BeautifulSoup : parser.
Variable page_content : list byte.
Variable tokens : list string.
Variable markup : list N.

Hypothesis decoded : Utf8.decode page_content = Returns markup.




End Outcome.

(* ===================================================================== *)
(** ** The two searches *)
(* ===================================================================== *)

Section Searches.

Variable w : world.
Variable service_version : string.

Lemma scrape_url_has_domain (BeautifulSoup : parser) (page : list byte)
      (tokens : list string) (url : string) :
  scrape_cve_table_page BeautifulSoup page tokens = Returns (Some url) ->
  String.prefix domain url = true.
Proof.
  unfold scrape_cve_table_page.
  destruct (Utf8.decode page) as [markup|e]; cbn [Py.bind]; [|discriminate].
  rewrite scrape_cells_find.
  destruct (List.find _ _) as [element|]; [|discriminate].
  destruct (advisory_href _ element) as [href|e]; cbn [Py.bind]; [|discriminate].
  intros H. injection H as <-. exact (prefix_app domain href).
Qed.

(** [find_suitable_cve], spelled out on the log. *)
Lemma find_suitable_cve_unfold (cve_table_url : string) (l : log) :
  find_suitable_cve w cve_table_url service_version l =
  (match get_reply w l cve_table_url with
   | Returns page_content =>
       match scrape_cve_table_page (html_parser w)
               page_content (extracted_service_ver_in_nums service_version) with
       | Returns (Some (String c url)) => Returns (Some [String c url])
       | Returns _ => Returns None
       | Raises e => Raises e
       end
   | Raises e => Raises e
   end, l ++ [HttpGet cve_table_url]).
Proof.
  unfold find_suitable_cve, get_page_content, session_get, Net.bind, lift, ret.
  destruct (get_reply w l cve_table_url) as [page|e]; [|reflexivity].
  destruct (scrape_cve_table_page _ _) as [[[|c url]|]|e]; reflexivity.
Qed.

(** [scrap_cve], spelled out on the log. *)
Lemma scrap_cve_unfold (l : log) :
  scrap_cve w service_version l =
  match search_reply w l service_version "https://www.cvedetails.com" with
  | Returns [] =>
      (Returns (Some []), l ++ [SearchForPages service_version "https://www.cvedetails.com"])
  | Returns (first_url :: _) =>
      find_suitable_cve w first_url service_version
        (l ++ [SearchForPages service_version "https://www.cvedetails.com"])
  | Raises e =>
      (Raises e, l ++ [SearchForPages service_version "https://www.cvedetails.com"])
  end.
Proof.
  unfold scrap_cve, search_for_pages, Net.bind, ret.
  destruct (search_reply w l service_version _) as [[|u urls]|e]; reflexivity.
Qed.

(** What the advisory search can return. *)
Lemma find_suitable_cve_returns (cve_table_url : string) (l l' : log)
      (r : option (list string)) :
  find_suitable_cve w cve_table_url service_version l = (Returns r, l') ->
  r = None \/ exists url, r = Some [url] /\ String.prefix domain url = true.
Proof.
  rewrite find_suitable_cve_unfold.
  destruct (get_reply w l cve_table_url) as [page|e]; [|discriminate].
  destruct (scrape_cve_table_page _ _) as [[[|c url]|]|e] eqn:Hscrape;
    intros H; inversion H; subst; auto.
  right. eexists; split; [reflexivity|].
  eapply scrape_url_has_domain; eassumption.
Qed.

Lemma scrap_cve_returns (l l' : log) (r : option (list string)) :
  scrap_cve w service_version l = (Returns r, l') ->
  r = None \/ r = Some []
  \/ exists url, r = Some [url] /\ String.prefix domain url = true.
Proof.
  rewrite scrap_cve_unfold.
  destruct (search_reply w l service_version "https://www.cvedetails.com") as [[|u urls]|e].
  - intros H; inversion H; auto.
  - intros H. apply find_suitable_cve_returns in H. tauto.
  - discriminate.
Qed.

(** [run_web_scrappers] hands on what the two searches returned. *)
Lemma run_web_scrappers_unfold (l : log) :
  run_web_scrappers w service_version l =
  let (cve, l1) := scrap_cve w service_version l in
  let (exploits, l2) := scrap_exploits w service_version l1 in
  (match cve, exploits with
   | Returns cve_urls, Returns exploits_urls => Returns (cve_urls, exploits_urls)
   | Raises e, _ => Raises e
   | _, Raises e => Raises e
   end, l2).
Proof.
  unfold run_web_scrappers, gather, Net.bind, ret.
  destruct (scrap_cve w service_version l) as [cve l1].
  destruct (scrap_exploits w service_version l1) as [exploits l2].
  destruct cve, exploits; reflexivity.
Qed.

Lemma run_web_scrappers_returns (l l' : log)
      (cve_urls : option (list string)) (exploits_urls : list string) :
  run_web_scrappers w service_version l = (Returns (cve_urls, exploits_urls), l') ->
  cve_urls = None \/ cve_urls = Some []
  \/ exists url, cve_urls = Some [url] /\ String.prefix domain url = true.
Proof.
  rewrite run_web_scrappers_unfold.
  destruct (scrap_cve w service_version l) as [cve l1] eqn:Hcve.
  destruct (scrap_exploits w service_version l1) as [exploits l2].
  destruct cve as [r|e], exploits as [x|e']; intros H; inversion H; subst.
  eapply scrap_cve_returns; eassumption.
Qed.

(** Both searches are invoked, whatever either of them does. *)
Lemma run_web_scrappers_invokes_both (l : log) :
  let l' := snd (run_web_scrappers w service_version l) in
  In (SearchForPages service_version "https://www.cvedetails.com") l'
  /\ In (SearchForPages service_version "https://www.exploit-db.com") l'.
Proof.
  cbv zeta. rewrite run_web_scrappers_unfold.
  destruct (scrap_cve w service_version l) as [cve l1] eqn:Hcve.
  assert (H1 : In (SearchForPages service_version "https://www.cvedetails.com") l1).
  { rewrite scrap_cve_unfold in Hcve.
    destruct (search_reply w l service_version _) as [[|u urls]|e].
    - injection Hcve as _ <-. apply in_or_app. right. now left.
    - rewrite find_suitable_cve_unfold in Hcve. injection Hcve as _ <-.
      apply in_or_app. left. apply in_or_app. right. now left.
    - injection Hcve as _ <-. apply in_or_app. right. now left. }
  unfold scrap_exploits, search_for_pages. cbn [snd].
  split; apply in_or_app; [left; exact H1 | right; now left].
Qed.

End Searches.

(* ===================================================================== *)
(** ** The merge loop *)
(* ===================================================================== *)

Section Merger.

Variable w : world.

(** One round of the loop. The [del] finds its item: no [IndexError]. *)
Lemma find_exploit_loop_step (fuel index_ : nat) (ports_services : list entry)
      (cve_urls : option (list string)) (exploit_urls : list string)
      (collected_info : entry) (l : log) :
  nth_error ports_services index_ = Some collected_info ->
  exists done todo,
    ports_services = done ++ collected_info :: todo /\ length done = index_ /\
    find_exploit_loop w (S fuel) index_ ports_services cve_urls exploit_urls l =
    match (if negb (String.eqb (entry_service_version collected_info) "Unknown")
           then run_web_scrappers w (entry_service_version collected_info) l
           else (Returns (cve_urls, exploit_urls), l)) with
    | (Returns (cve_urls', exploit_urls'), l') =>
        find_exploit_loop w fuel (S index_)
          ((done ++ [Correlated (correlate collected_info cve_urls' exploit_urls')])
             ++ todo)
          (drop_first cve_urls') (tl exploit_urls') l'
    | (Raises e, l') => (Raises e, l')
    end.
Proof.
  intros Hnth.
  destruct (nth_error_middle _ _ _ Hnth) as [done [todo [Hsplit Hlen]]].
  exists done, todo. split; [exact Hsplit|]. split; [exact Hlen|].
  cbn [find_exploit_loop]. rewrite Hnth.
  unfold Net.bind, ret, lift.
  assert (Hdel : forall new,
             list_del index_ (list_insert (index_ + 1) new ports_services)
             = Returns ((done ++ [new]) ++ todo)).
  { intros new. subst. apply insert_then_del. }
  destruct (negb _).
  - destruct (run_web_scrappers w _ l) as [[[c x]|e] l']; [|reflexivity].
    unfold correlate. now rewrite Hdel.
  - unfold correlate. now rewrite Hdel.
Qed.

Lemma find_exploit_loop_done (fuel index_ : nat) (ports_services : list entry)
      (cve_urls : option (list string)) (exploit_urls : list string) (l : log) :
  nth_error ports_services index_ = None ->
  find_exploit_loop w fuel index_ ports_services cve_urls exploit_urls l
  = (Returns ports_services, l).
Proof.
  intros Hnth. destruct fuel; cbn [find_exploit_loop]; now rewrite Hnth.
Qed.

(** The fuel handed to the loop by [find_exploit] is enough: more of it
    changes nothing. *)
Lemma find_exploit_loop_fuel (fuel : nat) :
  forall (index_ extra : nat) (ports_services : list entry)
         (cve_urls : option (list string)) (exploit_urls : list string) (l : log),
    length ports_services <= fuel + index_ ->
    find_exploit_loop w (fuel + extra) index_ ports_services cve_urls exploit_urls l
    = find_exploit_loop w fuel index_ ports_services cve_urls exploit_urls l.
Proof.
  induction fuel as [|fuel IH]; intros index_ extra ps cve_urls exploit_urls l Hlen.
  - assert (Hnone : nth_error ps index_ = None) by (apply nth_error_None; lia).
    now rewrite !find_exploit_loop_done.
  - destruct (nth_error ps index_) as [info|] eqn:Hnth.
    + cbn [Nat.add].
      destruct (find_exploit_loop_step (fuel + extra) _ _ cve_urls exploit_urls _ l Hnth)
        as [done [todo [Hsplit [Hdone ->]]]].
      destruct (find_exploit_loop_step fuel _ _ cve_urls exploit_urls _ l Hnth)
        as [done' [todo' [Hsplit' [Hdone' ->]]]].
      assert (Hsame : done' = done /\ todo' = todo).
      { rewrite Hsplit in Hsplit'. clear - Hsplit' Hdone Hdone'.
        assert (Hlen : length done = length done') by congruence.
        apply app_same_length in Hsplit'; [|exact Hlen].
        destruct Hsplit' as [Hd Ht]. split; congruence. }
      destruct Hsame as [-> ->].
      destruct (if negb _ then _ else _) as [[[c x]|e] l']; [|reflexivity].
      apply IH.
      rewrite Hsplit in Hlen. rewrite !length_app in *. simpl in *. lia.
    + now rewrite !find_exploit_loop_done.
Qed.

Lemma spent_drop_first (cve_urls : option (list string)) :
  cve_urls = None \/ cve_urls = Some []
  \/ (exists url, cve_urls = Some [url] /\ String.prefix domain url = true) ->
  spent (drop_first cve_urls) /\ advisory_link_ok (first_or_unknown cve_urls).
Proof.
  unfold spent, advisory_link_ok.
  intros [->|[->|[url [-> Hurl]]]]; simpl; auto.
Qed.

(** The invariant of the loop: the records before the index have been
    rewritten, those from the index on are still the scanner's. *)
Lemma find_exploit_loop_spec (todo : list ServiceRecord) :
  forall (done : list Vulnerability) (fuel : nat)
         (cve_urls : option (list string)) (exploit_urls : list string) (l : log),
    length todo <= fuel ->
    spent cve_urls ->
    match find_exploit_loop w fuel (length done)
            (map Correlated done ++ map Scanned todo) cve_urls exploit_urls l with
    | (Returns out, _) =>
        exists vs, out = map Correlated (done ++ vs) /\ Forall2 merged todo vs
    | (Raises e, _) =>
        exists r l0, In r todo /\ service_version r <> "Unknown"
                     /\ fst (run_web_scrappers w (service_version r) l0) = Raises e
    end.
Proof.
  induction todo as [|r todo IH]; intros done fuel cve_urls exploit_urls l Hfuel Hspent.
  - rewrite find_exploit_loop_done.
    + exists []. split; [now rewrite !app_nil_r | constructor].
    + apply nth_error_None. rewrite length_app, !length_map. simpl. lia.
  - destruct fuel as [|fuel]; [simpl in Hfuel; lia|].
    assert (Hnth : nth_error (map Correlated done ++ map Scanned (r :: todo))
                             (length done) = Some (Scanned r)).
    { rewrite nth_error_app2; rewrite length_map; [|lia].
      now rewrite Nat.sub_diag. }
    destruct (find_exploit_loop_step fuel _ _ cve_urls exploit_urls _ l Hnth)
      as [done' [todo' [Hsplit [Hdone ->]]]].
    assert (Hsame : done' = map Correlated done /\ todo' = map Scanned todo).
    { cbn [map] in Hsplit. apply app_same_length in Hsplit.
      - destruct Hsplit as [Hd Ht]. split; congruence.
      - rewrite length_map. congruence. }
    destruct Hsame as [-> ->]. clear Hsplit Hdone.
    cbn [entry_service_version].
    assert (Hnext : forall cve' exp' l',
               (cve' = None \/ cve' = Some []
                \/ exists url, cve' = Some [url] /\ String.prefix domain url = true) ->
               (service_version r = "Unknown" -> first_or_unknown cve' = "Unknown") ->
               match find_exploit_loop w fuel (S (length done))
                       ((map Correlated done
                           ++ [Correlated (correlate (Scanned r) cve' exp')])
                          ++ map Scanned todo)
                       (drop_first cve') (tl exp') l' with
               | (Returns out, _) =>
                   exists vs, out = map Correlated (done ++ vs)
                              /\ Forall2 merged (r :: todo) vs
               | (Raises e, _) =>
                   exists r0 l0, In r0 (r :: todo) /\ service_version r0 <> "Unknown"
                     /\ fst (run_web_scrappers w (service_version r0) l0) = Raises e
               end).
    { intros cve' exp' l' Hcve Hunknown.
      destruct (spent_drop_first _ Hcve) as [Hspent' Hlink].
      replace (map Correlated done ++ [Correlated (correlate (Scanned r) cve' exp')])
        with (map Correlated (done ++ [correlate (Scanned r) cve' exp']))
        by (rewrite map_app; reflexivity).
      replace (S (length done))
        with (length (done ++ [correlate (Scanned r) cve' exp']))
        by (rewrite length_app; simpl; lia).
      specialize (IH (done ++ [correlate (Scanned r) cve' exp']) fuel
                     (drop_first cve') (tl exp') l').
      destruct (find_exploit_loop w fuel _ _ _ _ l') as [[out|e] l''].
      - destruct IH as [vs [Hout Hvs]]; [simpl in Hfuel; lia | exact Hspent' |].
        exists (correlate (Scanned r) cve' exp' :: vs). split.
        + now rewrite Hout, <- app_assoc.
        + constructor; [|exact Hvs].
          repeat split; assumption.
      - destruct IH as [r0 [l0 [Hin Hr0]]]; [simpl in Hfuel; lia | exact Hspent' |].
        exists r0, l0. split; [now right | exact Hr0]. }
    destruct (String.eqb (service_version r) "Unknown") eqn:Hversion; cbn [negb].
    + apply Hnext.
      * destruct Hspent as [->| ->]; auto.
      * intros _. destruct Hspent as [->| ->]; reflexivity.
    + apply String.eqb_neq in Hversion.
      destruct (run_web_scrappers w (service_version r) l) as [[[cve' exp']|e] l'] eqn:Hrun.
      * apply Hnext.
        -- eapply run_web_scrappers_returns; eassumption.
        -- intros Heq. now elim Hversion.
      * exists r, l. split; [now left|]. split; [exact Hversion|].
        now rewrite Hrun.
Qed.

End Merger.

Section MergerConsequences.

Variable w : world.

Lemma Forall2_at {A B} (R : A -> B -> Prop) (xs : list A) (ys : list B) :
  Forall2 R xs ys ->
  forall i x, nth_error xs i = Some x ->
              exists y, nth_error ys i = Some y /\ R x y.
Proof.
  induction 1 as [|x0 y0 xs ys HR _ IH]; intros i x Hi.
  - now destruct i.
  - destruct i as [|i]; simpl in *.
    + injection Hi as <-. eauto.
    + eauto.
Qed.

(** The whole merge: either it returns one rewritten record per scanned
    record, in order, or a search for one of the services raised. *)
Lemma find_exploit_spec (scan_result : list ServiceRecord) (l : log) :
  match find_exploit w scan_result l with
  | (Returns out, _) =>
      exists vs, out = map Correlated vs /\ Forall2 merged scan_result vs
  | (Raises e, _) =>
      exists r l0, In r scan_result /\ service_version r <> "Unknown"
                   /\ fst (run_web_scrappers w (service_version r) l0) = Raises e
  end.
Proof.
  unfold find_exploit.
  apply (find_exploit_loop_spec w scan_result []).
  - now rewrite length_map.
  - now right.
Qed.

(** A round for a record of unknown version asks the network nothing:
    the log goes to the next round as it came, and the links are read
    off the two lists as the round before left them. *)
Lemma find_exploit_loop_unknown_round (fuel : nat)
      (done todo : list entry) (cve_urls : option (list string))
      (exploit_urls : list string) (collected_info : entry) (l : log) :
  entry_service_version collected_info = "Unknown" ->
  find_exploit_loop w (S fuel) (length done) (done ++ collected_info :: todo)
                    cve_urls exploit_urls l =
  find_exploit_loop w fuel (S (length done))
    ((done ++ [Correlated (correlate collected_info cve_urls exploit_urls)]) ++ todo)
    (drop_first cve_urls) (tl exploit_urls) l.
Proof.
  intros Hversion.
  assert (Hnth : nth_error (done ++ collected_info :: todo) (length done)
                 = Some collected_info).
  { rewrite nth_error_app2, Nat.sub_diag; [reflexivity | lia]. }
  destruct (find_exploit_loop_step w fuel _ _ cve_urls exploit_urls _ l Hnth)
    as [done' [todo' [Hsplit [Hdone ->]]]].
  apply app_same_length in Hsplit; [|congruence].
  destruct Hsplit as [<- Htodo]. injection Htodo as <-.
  now rewrite Hversion.
Qed.

End MergerConsequences.

(* ===================================================================== *)
(** ** The scenarios of the specification, run *)
(* ===================================================================== *)

Example tokenize_empty : extracted_service_ver_in_nums "" = [].
Proof. reflexivity. Qed.

Example tokenize_unknown : extracted_service_ver_in_nums "Unknown" = [].
Proof. reflexivity. Qed.

Example tokenize_release_candidate :
  extracted_service_ver_in_nums "7.2p1-rc3" = ["7.2p1"; "rc3"].
Proof. reflexivity. Qed.

Example parse_listing :
  Py.bind (Utf8.decode (list_byte_of_string Samples.listing_html))
          (fun markup => Returns (Samples.html_parser markup))
  = Returns Samples.listing.
Proof. vm_compute. reflexivity. Qed.

Example decode_two_byte_sequence :
  Utf8.decode [x63; x61; x66; xc3; xa9] = Returns [99; 97; 102; 233]%N.
Proof. reflexivity. Qed.

Example decode_three_byte_sequence :
  Utf8.decode [xe2; x82; xac] = Returns [8364]%N.
Proof. reflexivity. Qed.

Example decode_four_byte_sequence :
  Utf8.decode [xf0; x9f; x98; x80] = Returns [128512]%N.
Proof. reflexivity. Qed.

Example decode_overlong_form :
  Utf8.decode [xc0; x80] = Raises UnicodeDecodeError
  /\ Utf8.decode [xe0; x80; x80] = Raises UnicodeDecodeError.
Proof. split; reflexivity. Qed.

Example decode_surrogate :
  Utf8.decode [xed; xa0; x80] = Raises UnicodeDecodeError.
Proof. reflexivity. Qed.

Example decode_truncated_sequence :
  Utf8.decode [x61; xe2; x82] = Raises UnicodeDecodeError.
Proof. reflexivity. Qed.

Example decode_latin1_page :
  Utf8.decode Samples.latin1_page = Raises UnicodeDecodeError.
Proof. reflexivity. Qed.

Example find_exploit_on_latin1_listing :
  fst (find_exploit Scenario.latin1_listing [Scenario.openssh] [])
  = Raises UnicodeDecodeError.
Proof. vm_compute. reflexivity. Qed.

Example scrape_second_cell :
  scrape_cve_table_page Samples.html_parser
    (list_byte_of_string Samples.listing_html) ["7"; "2"]
  = Returns (Some "https://www.cvedetails.com/cve/CVE-2016-6210/").
Proof. vm_compute. reflexivity. Qed.

Example scrape_bare_cell :
  scrape_cve_table_page Samples.html_parser
    (list_byte_of_string Samples.bare_cell_html) ["7.2"]
  = Raises AttributeError.
Proof. vm_compute. reflexivity. Qed.

Example scenario_a :
  find_exploit Scenario.two_exploits [Scenario.ssh_unknown] []
  = (Returns [Correlated {| v_port_number := 22; v_service_name := "ssh";
                            v_service_version := "Unknown";
                            cve_link := "Unknown"; exploit_link := "Unknown" |}],
     []).
Proof. reflexivity. Qed.

Example scenario_b :
  fst (find_exploit (Scenario.one_listing Samples.apache_listing_html)
                    [Scenario.apache] [])
  = Returns [Correlated {| v_port_number := 80; v_service_name := "apache";
                           v_service_version := "2.4.49";
                           cve_link := "https://www.cvedetails.com/cve/CVE-2021-41773/";
                           exploit_link := "https://www.exploit-db.com/exploits/40136" |}].
Proof. reflexivity. Qed.

(* ===================================================================== *)
(** ** Checked properties: tokenizer and extractor *)
(* ===================================================================== *)

(** C3. The specification asks that every token returned by the version
    tokenizer contain a digit. The loop removes items from the list it
    is iterating over, so the item that slides into the freed position
    is never examined: for ["a-b"] the pieces are [["a"; "b"]], ["a"] is
    removed at index 0, the iterator moves to index 1 of [["b"]] and
    stops. The token ["b"] is returned although it has no digit; the same
    happens to ["ubuntu"] in ["OpenSSH_7.2p1-Debian-ubuntu"]. *)
Theorem tokenizer_returns_token_without_digit :
  extracted_service_ver_in_nums "a-b" = ["b"]
  /\ any_isdigit "b" = false
  /\ extracted_service_ver_in_nums "OpenSSH_7.2p1-Debian-ubuntu" = ["7.2p1"; "ubuntu"]
  /\ any_isdigit "ubuntu" = false.
Proof. repeat split. Qed.

(** C8, as the specification states it, fails: ["7.2p1"] is not mapped to
    [["7"; "2"; "1"]]. *)
Lemma tokenizer_does_not_split_at_dots :
  extracted_service_ver_in_nums "7.2p1" <> ["7"; "2"; "1"].
Proof. vm_compute. discriminate. Qed.

(** C8, amended. The tokenizer maps ["7.2p1"] to the single token
    ["7.2p1"]: the string is cut at hyphens and underscores only, and
    every token is one of the pieces between them, whole. *)
Theorem tokenizer_tokens_are_whole_pieces :
  extracted_service_ver_in_nums "7.2p1" = ["7.2p1"]
  /\ forall service_version token,
       In token (extracted_service_ver_in_nums service_version) ->
       In token (re_split service_version).
Proof.
  split; [reflexivity|].
  intros service_version token. apply tokens_are_pieces.
Qed.

Lemma tokenizer_tokens_are_whole_pieces_witness :
  In "rc3" (extracted_service_ver_in_nums "7.2p1-rc3")
  /\ In "rc3" (re_split "7.2p1-rc3").
Proof.
  assert (H : In "rc3" (extracted_service_ver_in_nums "7.2p1-rc3"))
    by (vm_compute; auto).
  split; [exact H|].
  exact (proj2 tokenizer_tokens_are_whole_pieces "7.2p1-rc3" "rc3" H).
Defined.







(* ===================================================================== *)
(** ** Checked properties: the searches and the merge *)
(* ===================================================================== *)

(** C6, as the specification states it, fails. When the site finder has
    no candidate page, [scrap_cve] returns the site finder's own empty
    list, which is not [None]. *)
Lemma scrap_cve_returns_empty_list_not_none :
  search_reply Scenario.two_exploits [] "2.4.49" "https://www.cvedetails.com"
  = Returns []
  /\ fst (scrap_cve Scenario.two_exploits "2.4.49" []) = Returns (Some [])
  /\ fst (scrap_cve Scenario.two_exploits "2.4.49" []) <> Returns None.
Proof. vm_compute. repeat split. discriminate. Qed.

(** C6, amended. [scrap_cve] returns the empty sequence when the site
    finder has no candidate page, and [None] when the page of the first
    candidate has no matching row; a sequence it returns has at most one
    element. *)
Theorem scrap_cve_outcomes (w : world) (version : string) (l : log) :
  (search_reply w l version "https://www.cvedetails.com" = Returns [] ->
   fst (scrap_cve w version l) = Returns (Some []))
  /\ (forall first_url others page_content,
         search_reply w l version "https://www.cvedetails.com"
         = Returns (first_url :: others) ->
         get_reply w (l ++ [SearchForPages version "https://www.cvedetails.com"])
                   first_url = Returns page_content ->
         scrape_cve_table_page (html_parser w) page_content
                               (extracted_service_ver_in_nums version)
         = Returns None ->
         fst (scrap_cve w version l) = Returns None)
  /\ (forall urls,
         fst (scrap_cve w version l) = Returns (Some urls) -> length urls <= 1).
Proof.
  split; [|split].
  - intros Hsearch. now rewrite scrap_cve_unfold, Hsearch.
  - intros first_url others page Hsearch Hget Hscrape.
    now rewrite scrap_cve_unfold, Hsearch, find_suitable_cve_unfold, Hget, Hscrape.
  - intros urls Hret.
    destruct (scrap_cve w version l) as [r l'] eqn:Hrun. simpl in Hret. subst r.
    apply scrap_cve_returns in Hrun.
    destruct Hrun as [H|[H|[url [H _]]]]; inversion H; simpl; lia.
Qed.

Lemma scrap_cve_outcomes_witness :
  fst (scrap_cve Scenario.two_exploits "2.4.49" []) = Returns (Some [])
  /\ fst (scrap_cve (Scenario.one_listing Samples.listing_html) "9.9" [])
     = Returns None
  /\ length ["https://www.cvedetails.com/cve/CVE-2016-6210/"] <= 1.
Proof.
  split; [|split].
  - apply (proj1 (scrap_cve_outcomes Scenario.two_exploits "2.4.49" [])).
    reflexivity.
  - apply (proj1 (proj2 (scrap_cve_outcomes (Scenario.one_listing Samples.listing_html)
                                             "9.9" []))
             "https://www.cvedetails.com/vulnerability-list/openssh.html" []
             (list_byte_of_string Samples.listing_html));
      vm_compute; reflexivity.
  - apply (proj2 (proj2 (scrap_cve_outcomes (Scenario.one_listing Samples.listing_html)
                                             "OpenSSH_7.2" []))).
    vm_compute. reflexivity.
Defined.

(** C7. A failure raised while the advisory page is fetched is caught
    neither in [get_page_content], nor in [find_suitable_cve], nor in
    [scrap_cve]: each of them raises the very same exception. *)
Theorem fetch_failure_propagates (w : world) (version : string) (l : log) (e : exn) :
  (forall cve_table_url,
      get_reply w l cve_table_url = Raises e ->
      fst (get_page_content w cve_table_url l) = Raises e
      /\ fst (find_suitable_cve w cve_table_url version l) = Raises e)
  /\ (forall first_url others,
         search_reply w l version "https://www.cvedetails.com"
         = Returns (first_url :: others) ->
         get_reply w (l ++ [SearchForPages version "https://www.cvedetails.com"])
                   first_url = Raises e ->
         fst (scrap_cve w version l) = Raises e).
Proof.
  split.
  - intros url Hget. split.
    + unfold get_page_content, session_get. simpl. exact Hget.
    + now rewrite find_suitable_cve_unfold, Hget.
  - intros first_url others Hsearch Hget.
    now rewrite scrap_cve_unfold, Hsearch, find_suitable_cve_unfold, Hget.
Qed.

Lemma fetch_failure_propagates_witness :
  fst (scrap_cve Scenario.offline "OpenSSH_7.2" [])
  = Raises (ClientError "connection refused")
  /\ fst (find_suitable_cve Scenario.offline
            "https://www.cvedetails.com/vulnerability-list/openssh.html"
            "OpenSSH_7.2" [])
     = Raises (ClientError "connection refused").
Proof.
  split.
  - apply (proj2 (fetch_failure_propagates Scenario.offline "OpenSSH_7.2" []
                    (ClientError "connection refused"))
             "https://www.cvedetails.com/vulnerability-list/openssh.html" []);
      reflexivity.
  - apply (proj1 (fetch_failure_propagates Scenario.offline "OpenSSH_7.2" []
                    (ClientError "connection refused"))
             "https://www.cvedetails.com/vulnerability-list/openssh.html").
    reflexivity.
Defined.

(** C1. Whenever [find_exploit] returns, the list holds exactly one
    correlated record per scanned record, at the same index and with the
    same port number, service name and service version; nothing is
    dropped or duplicated, with or without a match. The only other
    outcome is that a search for one of the services raised, and then
    [find_exploit] raises the same exception. *)
Theorem find_exploit_one_record_per_service
        (w : world) (scan_result : list ServiceRecord) (l : log) :
  match find_exploit w scan_result l with
  | (Returns out, _) =>
      length out = length scan_result
      /\ forall i r,
           nth_error scan_result i = Some r ->
           exists v, nth_error out i = Some (Correlated v)
                     /\ v_port_number v = port_number r
                     /\ v_service_name v = service_name r
                     /\ v_service_version v = service_version r
  | (Raises e, _) =>
      exists r l0, In r scan_result /\ service_version r <> "Unknown"
                   /\ fst (run_web_scrappers w (service_version r) l0) = Raises e
  end.
Proof.
  pose proof (find_exploit_spec w scan_result l) as Hspec.
  destruct (find_exploit w scan_result l) as [[out|e] l']; [|exact Hspec].
  destruct Hspec as [vs [-> Hvs]]. split.
  - rewrite length_map. symmetry. eapply Forall2_length; eassumption.
  - intros i r Hi.
    destruct (Forall2_at _ _ _ Hvs i r Hi) as [v [Hv [Hcarry _]]].
    exists v. split; [|exact Hcarry].
    now rewrite nth_error_map, Hv.
Qed.

(** C2. The specification asks that a record whose version is ["Unknown"]
    get ["Unknown"] for both links. [exploit_urls] is bound before the
    loop and only its first item is deleted after a round, so what is
    left of the exploit search for one service is still there in the next
    round. With two exploit pages found for the service on port 80, the
    record of unknown version that follows it gets the second page as its
    exploit link. No search is issued for that record: the log holds the
    two searches for ["2.4.49"] only. *)
Theorem unknown_version_gets_leftover_exploit_link :
  find_exploit Scenario.two_exploits [Scenario.apache; Scenario.ssh_unknown] []
  = (Returns
       [ Correlated {| v_port_number := 80; v_service_name := "apache";
                       v_service_version := "2.4.49"; cve_link := "Unknown";
                       exploit_link := "https://www.exploit-db.com/exploits/50383" |};
         Correlated {| v_port_number := 22; v_service_name := "ssh";
                       v_service_version := "Unknown"; cve_link := "Unknown";
                       exploit_link := "https://www.exploit-db.com/exploits/50406" |} ],
     [ SearchForPages "2.4.49" "https://www.cvedetails.com";
       SearchForPages "2.4.49" "https://www.exploit-db.com" ]).
Proof. reflexivity. Qed.

(** C10. Every URL that [scrape_cve_table_page] returns begins with
    ["https://www.cvedetails.com"], and so does every [cve_link] other
    than ["Unknown"] in the list that [find_exploit] returns. *)
Theorem advisory_links_lie_under_the_domain :
  (forall BeautifulSoup page tokens url,
      scrape_cve_table_page BeautifulSoup page tokens = Returns (Some url) ->
      String.prefix "https://www.cvedetails.com" url = true)
  /\ (forall w scan_result l out l' v,
         find_exploit w scan_result l = (Returns out, l') ->
         In (Correlated v) out ->
         cve_link v = "Unknown"
         \/ String.prefix "https://www.cvedetails.com" (cve_link v) = true).
Proof.
  split.
  - intros BeautifulSoup page tokens url. apply scrape_url_has_domain.
  - intros w scan_result l out l' v Hrun Hin.
    pose proof (find_exploit_spec w scan_result l) as Hspec.
    rewrite Hrun in Hspec. destruct Hspec as [vs [-> Hvs]].
    apply in_map_iff in Hin. destruct Hin as [v' [Heq Hin]].
    injection Heq as ->.
    clear Hrun. induction Hvs as [|r v0 rs vs [_ [Hlink _]] _ IH].
    + destruct Hin.
    + destruct Hin as [->|Hin]; [exact Hlink | exact (IH Hin)].
Qed.

Lemma advisory_links_lie_under_the_domain_witness :
  String.prefix "https://www.cvedetails.com"
                "https://www.cvedetails.com/cve/CVE-2016-6210/" = true
  /\ ("https://www.cvedetails.com/cve/CVE-2016-6210/" = "Unknown"
      \/ String.prefix "https://www.cvedetails.com"
                       "https://www.cvedetails.com/cve/CVE-2016-6210/" = true).
Proof.
  split.
  - apply (proj1 advisory_links_lie_under_the_domain Samples.html_parser
                 (list_byte_of_string Samples.listing_html) ["7"; "2"]).
    vm_compute. reflexivity.
  - apply (proj2 advisory_links_lie_under_the_domain
             (Scenario.one_listing Samples.listing_html) [Scenario.openssh] []
             [Correlated {| v_port_number := 22; v_service_name := "ssh";
                            v_service_version := "OpenSSH_7.2";
                            cve_link := "https://www.cvedetails.com/cve/CVE-2016-6210/";
                            exploit_link := "https://www.exploit-db.com/exploits/40136" |}]
             [SearchForPages "OpenSSH_7.2" "https://www.cvedetails.com";
              HttpGet "https://www.cvedetails.com/vulnerability-list/openssh.html";
              SearchForPages "OpenSSH_7.2" "https://www.exploit-db.com"]
             {| v_port_number := 22; v_service_name := "ssh";
                v_service_version := "OpenSSH_7.2";
                cve_link := "https://www.cvedetails.com/cve/CVE-2016-6210/";
                exploit_link := "https://www.exploit-db.com/exploits/40136" |}).
    + vm_compute. reflexivity.
    + left. reflexivity.
Defined.

(* ===================================================================== *)
(** ** Further properties: the version tokenizer *)
(* ===================================================================== *)

Section TokenizerMore.

Lemma list_remove_keeps_digits (x : string) (l : list string) :
  any_isdigit x = false ->
  filter any_isdigit (list_remove x l) = filter any_isdigit l.
Proof.
  intros Hx. induction l as [|y l IH]; simpl; [reflexivity|].
  destruct (String.eqb y x) eqn:Hy.
  - apply String.eqb_eq in Hy. subst y. now rewrite Hx.
  - simpl. now rewrite IH.
Qed.

Lemma remove_loop_keeps_digits (fuel : nat) :
  forall index l,
    filter any_isdigit (remove_loop fuel index l) = filter any_isdigit l.
Proof.
  induction fuel as [|fuel IH]; intros index l; simpl.
  - now destruct (nth_error l index).
  - destruct (nth_error l index) as [element|]; [|reflexivity].
    destruct (any_isdigit element) eqn:Hd; simpl.
    + apply IH.
    + rewrite IH. now apply list_remove_keeps_digits.
Qed.

Lemma separator_free_tail (c : ascii) (s : string) :
  separator_free (String c s) -> is_separator c = false /\ separator_free s.
Proof.
  intros H. split.
  - apply H. now left.
  - intros d Hd. apply H. now right.
Qed.

Lemma re_split_separator_free (s : string) :
  separator_free s -> re_split s = [s].
Proof.
  induction s as [|c s IH]; intros Hfree; [reflexivity|].
  apply separator_free_tail in Hfree. destruct Hfree as [Hc Hs].
  cbn [re_split]. now rewrite Hc, (IH Hs).
Qed.

Lemma re_split_trailing_hyphen (s : string) :
  separator_free s -> re_split (s ++ "-") = [s; ""].
Proof.
  induction s as [|c s IH]; intros Hfree; [reflexivity|].
  apply separator_free_tail in Hfree. destruct Hfree as [Hc Hs].
  cbn [String.append re_split]. now rewrite Hc, (IH Hs).
Qed.

(** A piece without a digit is removed where it stands when all the
    pieces before it have a digit. *)
Lemma list_remove_after_kept (kept rest : list string) (x : string) :
  Forall (fun piece => any_isdigit piece = true) kept ->
  any_isdigit x = false ->
  list_remove x (kept ++ x :: rest) = kept ++ rest.
Proof.
  intros Hkept Hx. induction Hkept as [|y kept Hy _ IH]; simpl.
  - now rewrite String.eqb_refl.
  - destruct (String.eqb y x) eqn:Heq.
    + apply String.eqb_eq in Heq. congruence.
    + now rewrite IH.
Qed.

Lemma remove_loop_complete (fuel : nat) :
  forall kept rest,
    Forall (fun piece => any_isdigit piece = true) kept ->
    no_two_wordy_neighbours rest ->
    length rest <= fuel ->
    remove_loop fuel (length kept) (kept ++ rest)
    = kept ++ filter any_isdigit rest.
Proof.
  induction fuel as [|fuel IH]; intros kept rest Hkept Hrest Hlen.
  - destruct rest; [|simpl in Hlen; lia].
    simpl. rewrite app_nil_r.
    now destruct (nth_error kept (length kept)).
  - destruct rest as [|a rest].
    { simpl. rewrite app_nil_r.
      assert (Hnone : nth_error kept (length kept) = None)
        by (apply nth_error_None; lia).
      now rewrite Hnone. }
    cbn [remove_loop].
    rewrite nth_error_app2, Nat.sub_diag by lia. cbn [nth_error].
    destruct (any_isdigit a) eqn:Ha; cbn [negb filter]; rewrite Ha.
    + replace (kept ++ a :: rest) with ((kept ++ [a]) ++ rest)
        by now rewrite <- app_assoc.
      replace (S (length kept)) with (length (kept ++ [a]))
        by (rewrite length_app; simpl; lia).
      rewrite IH.
      * now rewrite <- app_assoc.
      * apply Forall_app. split; [exact Hkept | now constructor].
      * destruct rest; [exact I | apply Hrest].
      * simpl in Hlen. lia.
    + rewrite (list_remove_after_kept _ _ _ Hkept Ha).
      destruct rest as [|b rest].
      { rewrite app_nil_r.
        assert (Hnone : nth_error kept (S (length kept)) = None)
          by (apply nth_error_None; lia).
        destruct fuel; cbn [remove_loop filter]; rewrite Hnone;
          now rewrite app_nil_r. }
      destruct Hrest as [[Hab|Hb] Hrest]; [congruence|].
      replace (kept ++ b :: rest) with ((kept ++ [b]) ++ rest)
        by now rewrite <- app_assoc.
      replace (S (length kept)) with (length (kept ++ [b]))
        by (rewrite length_app; simpl; lia).
      rewrite IH.
      * cbn [filter]. rewrite Hb. now rewrite <- app_assoc.
      * apply Forall_app. split; [exact Hkept | now constructor].
      * destruct rest; [exact I | apply Hrest].
      * simpl in Hlen. lia.
Qed.

Lemma tokens_of_one_piece (service_version : string) :
  separator_free service_version ->
  extracted_service_ver_in_nums service_version
  = if any_isdigit service_version then [service_version] else [].
Proof.
  intros Hfree. unfold extracted_service_ver_in_nums.
  rewrite (re_split_separator_free _ Hfree). cbn.
  destruct (any_isdigit service_version); cbn; [reflexivity|].
  now rewrite String.eqb_refl.
Qed.

End TokenizerMore.

(** X1. The tokenizer never loses a piece that has a digit: the pieces
    with a digit among the tokens are those among the pieces of the
    split, in the same order and as often. *)
Theorem tokenizer_keeps_every_numeric_piece (service_version : string) :
  filter any_isdigit (extracted_service_ver_in_nums service_version)
  = filter any_isdigit (re_split service_version).
Proof. apply remove_loop_keeps_digits. Qed.

(** X2. A version without hyphen and underscore is one piece: the tokens
    are the version itself when it has a digit, and none otherwise (so
    for the empty string and for ["Unknown"]). *)
Theorem tokenizer_without_separator (service_version : string) :
  separator_free service_version ->
  extracted_service_ver_in_nums service_version
  = if any_isdigit service_version then [service_version] else [].
Proof. apply tokens_of_one_piece. Qed.

Lemma tokenizer_without_separator_witness :
  extracted_service_ver_in_nums "2.4.49" = ["2.4.49"]
  /\ extracted_service_ver_in_nums "Unknown" = [].
Proof.
  split.
  - apply (tokenizer_without_separator "2.4.49").
    intros c Hc. simpl in Hc.
    repeat (destruct Hc as [<-|Hc]; [reflexivity|]). destruct Hc.
  - apply (tokenizer_without_separator "Unknown").
    intros c Hc. simpl in Hc.
    repeat (destruct Hc as [<-|Hc]; [reflexivity|]). destruct Hc.
Defined.

(** X3. When no two neighbouring pieces of the split are both without a
    digit, the tokens are exactly the pieces that have a digit. *)
Theorem tokenizer_complete_without_wordy_neighbours (service_version : string) :
  no_two_wordy_neighbours (re_split service_version) ->
  extracted_service_ver_in_nums service_version
  = filter any_isdigit (re_split service_version).
Proof.
  intros Hpieces. unfold extracted_service_ver_in_nums.
  apply (remove_loop_complete _ [] _ (Forall_nil _) Hpieces (le_n _)).
Qed.

Lemma tokenizer_complete_without_wordy_neighbours_witness :
  extracted_service_ver_in_nums "OpenSSH_7.2p1-Debian" = ["7.2p1"].
Proof.
  apply (tokenizer_complete_without_wordy_neighbours "OpenSSH_7.2p1-Debian").
  simpl. repeat split; auto.
Defined.

(** X4. A word without a digit that ends in a hyphen gives the single
    token [""], the empty string. *)
Theorem tokenizer_trailing_hyphen_gives_empty_token (word : string) :
  separator_free word ->
  any_isdigit word = false ->
  extracted_service_ver_in_nums (word ++ "-") = [""].
Proof.
  intros Hfree Hword. unfold extracted_service_ver_in_nums.
  rewrite (re_split_trailing_hyphen _ Hfree).
  cbn. rewrite Hword. cbn. now rewrite String.eqb_refl.
Qed.

Lemma tokenizer_trailing_hyphen_gives_empty_token_witness :
  extracted_service_ver_in_nums "nginx-" = [""].
Proof.
  apply (tokenizer_trailing_hyphen_gives_empty_token "nginx").
  - intros c Hc. simpl in Hc.
    repeat (destruct Hc as [<-|Hc]; [reflexivity|]). destruct Hc.
  - reflexivity.
Defined.

(* ===================================================================== *)
(** ** Further properties: the extractor and the advisory search *)
(* ===================================================================== *)

Section ExtractorMore.

Lemma str_in_empty (text : string) : str_in "" text = true.
Proof. destruct text; reflexivity. Qed.

Lemma empty_token_matches (doc : document) (tokens : list string) (element : nat) :
  In "" tokens -> matches doc tokens element = true.
Proof.
  intros Hin. unfold matches. apply existsb_exists.
  exists "". split; [exact Hin | apply str_in_empty].
Qed.

Lemma scrap_exploits_unfold (w : world) (version : string) (l : log) :
  scrap_exploits w version l
  = (search_reply w l version "https://www.exploit-db.com",
     l ++ [SearchForPages version "https://www.exploit-db.com"]).
Proof. reflexivity. Qed.

End ExtractorMore.



(** X6. [scrap_cve] asks the site finder once and then fetches at most
    one page, the first candidate; it fetches nothing when the site
    finder has no candidate or raises. The log it finds is kept. *)
Theorem scrap_cve_fetches_first_candidate_only (w : world) (version : string) (l : log) :
  snd (scrap_cve w version l)
  = l ++ SearchForPages version "https://www.cvedetails.com"
      :: match search_reply w l version "https://www.cvedetails.com" with
         | Returns (first_url :: _) => [HttpGet first_url]
         | _ => []
         end.
Proof.
  rewrite scrap_cve_unfold.
  destruct (search_reply w l version "https://www.cvedetails.com") as [[|u urls]|e];
    try reflexivity.
  rewrite find_suitable_cve_unfold. cbn [snd]. now rewrite <- app_assoc.
Qed.

(** X7. For a version without digit, hyphen and underscore the advisory
    search never returns a link, although it fetches the listing like for
    any other version: the tokenizer has no token for the extractor to
    look for. *)
Theorem scrap_cve_without_digit_finds_nothing (w : world) (version : string) (l : log) :
  separator_free version ->
  any_isdigit version = false ->
  fst (scrap_cve w version l) = Returns None
  \/ fst (scrap_cve w version l) = Returns (Some [])
  \/ exists e, fst (scrap_cve w version l) = Raises e.
Proof.
  intros Hfree Hword.
  rewrite scrap_cve_unfold.
  destruct (search_reply w l version "https://www.cvedetails.com") as [[|u us]|e];
    cbn [fst]; eauto.
  rewrite find_suitable_cve_unfold. cbn [fst].
  rewrite (tokens_of_one_piece _ Hfree), Hword.
  destruct (get_reply w _ u) as [page|e]; eauto.
  unfold scrape_cve_table_page.
  destruct (Utf8.decode page) as [markup|e]; cbn [Py.bind]; eauto.
  rewrite scrape_cells_find, find_no_match; [now left|].
  intros c _. apply no_token_no_match.
Qed.

Lemma scrap_cve_without_digit_finds_nothing_witness :
  scrap_cve (Scenario.one_listing Samples.listing_html) "nginx" []
  = (Returns None,
     [SearchForPages "nginx" "https://www.cvedetails.com";
      HttpGet "https://www.cvedetails.com/vulnerability-list/openssh.html"])
  /\ (fst (scrap_cve (Scenario.one_listing Samples.listing_html) "nginx" []) = Returns None
      \/ fst (scrap_cve (Scenario.one_listing Samples.listing_html) "nginx" [])
         = Returns (Some [])
      \/ exists e, fst (scrap_cve (Scenario.one_listing Samples.listing_html) "nginx" [])
                   = Raises e).
Proof.
  split; [vm_compute; reflexivity|].
  apply (scrap_cve_without_digit_finds_nothing
           (Scenario.one_listing Samples.listing_html) "nginx" []).
  - intros c Hc. simpl in Hc.
    repeat (destruct Hc as [<-|Hc]; [reflexivity|]). destruct Hc.
  - reflexivity.
Defined.

(* ===================================================================== *)
(** ** Further properties: the merge *)
(* ===================================================================== *)

Section MergerMore.

Variable w : world.

(** One round, at the border between the records already rewritten and
    those still to do. *)
Lemma find_exploit_loop_round (fuel : nat) (done : list Vulnerability)
      (r : ServiceRecord) (todo : list ServiceRecord)
      (cve_urls : option (list string)) (exploit_urls : list string) (l : log) :
  find_exploit_loop w (S fuel) (length done)
                    (map Correlated done ++ map Scanned (r :: todo))
                    cve_urls exploit_urls l =
  match (if negb (String.eqb (service_version r) "Unknown")
         then run_web_scrappers w (service_version r) l
         else (Returns (cve_urls, exploit_urls), l)) with
  | (Returns (cve_urls', exploit_urls'), l') =>
      find_exploit_loop w fuel
        (length (done ++ [correlate (Scanned r) cve_urls' exploit_urls']))
        (map Correlated (done ++ [correlate (Scanned r) cve_urls' exploit_urls'])
           ++ map Scanned todo)
        (drop_first cve_urls') (tl exploit_urls') l'
  | (Raises e, l') => (Raises e, l')
  end.
Proof.
  assert (Hnth : nth_error (map Correlated done ++ map Scanned (r :: todo))
                           (length done) = Some (Scanned r)).
  { rewrite nth_error_app2; rewrite length_map; [|lia].
    now rewrite Nat.sub_diag. }
  destruct (find_exploit_loop_step w fuel _ _ cve_urls exploit_urls _ l Hnth)
    as [done' [todo' [Hsplit [Hdone ->]]]].
  cbn [map] in Hsplit. apply app_same_length in Hsplit;
    [|rewrite length_map; congruence].
  destruct Hsplit as [<- Htodo]. injection Htodo as <-.
  cbn [entry_service_version].
  destruct (if negb _ then _ else _) as [[[c x]|e] l']; [|reflexivity].
  rewrite map_app, length_app. cbn [map length].
  now rewrite Nat.add_1_r.
Qed.

Lemma find_exploit_loop_end (fuel : nat) (done : list Vulnerability)
      (cve_urls : option (list string)) (exploit_urls : list string) (l : log) :
  find_exploit_loop w fuel (length done) (map Correlated done ++ map Scanned [])
                    cve_urls exploit_urls l
  = (Returns (map Correlated (done ++ [])), l).
Proof.
  rewrite find_exploit_loop_done.
  - now rewrite !app_nil_r.
  - apply nth_error_None. rewrite length_app, !length_map. simpl. lia.
Qed.

(** The loop, for any relation between a scanned record and the record
    written for it that each round establishes, and any condition on the
    two lists of links that each round keeps. *)
Section Invariant.

Variable R : ServiceRecord -> Vulnerability -> Prop.
Variable I : option (list string) -> list string -> Prop.

Hypothesis round_without_search :
  forall r cve_urls exploit_urls,
    I cve_urls exploit_urls ->
    service_version r = "Unknown" ->
    R r (correlate (Scanned r) cve_urls exploit_urls)
    /\ I (drop_first cve_urls) (tl exploit_urls).

Hypothesis round_with_search :
  forall r l cve_urls exploit_urls l',
    service_version r <> "Unknown" ->
    run_web_scrappers w (service_version r) l = (Returns (cve_urls, exploit_urls), l') ->
    R r (correlate (Scanned r) cve_urls exploit_urls)
    /\ I (drop_first cve_urls) (tl exploit_urls).

Lemma find_exploit_loop_relates (todo : list ServiceRecord) :
  forall (done : list Vulnerability) (fuel : nat)
         (cve_urls : option (list string)) (exploit_urls : list string)
         (l l' : log) (out : list entry),
    length todo <= fuel ->
    I cve_urls exploit_urls ->
    find_exploit_loop w fuel (length done)
      (map Correlated done ++ map Scanned todo) cve_urls exploit_urls l
    = (Returns out, l') ->
    exists vs, out = map Correlated (done ++ vs) /\ Forall2 R todo vs.
Proof.
  induction todo as [|r todo IH];
    intros done fuel cve_urls exploit_urls l l' out Hfuel Hinv Hrun.
  - rewrite find_exploit_loop_end in Hrun. injection Hrun as <- _.
    exists []. split; [reflexivity | constructor].
  - destruct fuel as [|fuel]; [simpl in Hfuel; lia|].
    rewrite find_exploit_loop_round in Hrun.
    assert (Hstep : exists cve' exp' l1,
               R r (correlate (Scanned r) cve' exp')
               /\ I (drop_first cve') (tl exp')
               /\ find_exploit_loop w fuel
                    (length (done ++ [correlate (Scanned r) cve' exp']))
                    (map Correlated (done ++ [correlate (Scanned r) cve' exp'])
                       ++ map Scanned todo)
                    (drop_first cve') (tl exp') l1 = (Returns out, l')).
    { destruct (String.eqb (service_version r) "Unknown") eqn:Hversion;
        cbn [negb] in Hrun.
      - apply String.eqb_eq in Hversion.
        destruct (round_without_search r _ _ Hinv Hversion) as [HR HI].
        exists cve_urls, exploit_urls, l. auto.
      - apply String.eqb_neq in Hversion.
        destruct (run_web_scrappers w (service_version r) l)
          as [[[cve' exp']|e] l1] eqn:Hsearch; [|discriminate].
        destruct (round_with_search r _ _ _ _ Hversion Hsearch) as [HR HI].
        exists cve', exp', l1. auto. }
    destruct Hstep as [cve' [exp' [l1 [HR [HI Hrest]]]]].
    apply IH in Hrest; [|simpl in Hfuel; lia | exact HI].
    destruct Hrest as [vs [-> Hvs]].
    exists (correlate (Scanned r) cve' exp' :: vs). split.
    + now rewrite <- app_assoc.
    + now constructor.
Qed.

Lemma find_exploit_relates (scan_result : list ServiceRecord)
      (l l' : log) (out : list entry) :
  I (Some []) [] ->
  find_exploit w scan_result l = (Returns out, l') ->
  exists vs, out = map Correlated vs /\ Forall2 R scan_result vs.
Proof.
  intros Hinv Hrun. unfold find_exploit in Hrun.
  apply (find_exploit_loop_relates scan_result [] _ _ _ _ _ _) in Hrun.
  - exact Hrun.
  - now rewrite length_map.
  - exact Hinv.
Qed.

End Invariant.

(** The exploit links that [run_web_scrappers] returns are the reply of
    the site finder. *)
Lemma run_web_scrappers_exploits (version : string) (l l' : log)
      (cve_urls : option (list string)) (exploit_urls : list string) :
  run_web_scrappers w version l = (Returns (cve_urls, exploit_urls), l') ->
  exists l1, search_reply w l1 version "https://www.exploit-db.com"
             = Returns exploit_urls.
Proof.
  rewrite run_web_scrappers_unfold.
  destruct (scrap_cve w version l) as [cve l1].
  rewrite scrap_exploits_unfold.
  destruct cve as [r|e];
    destruct (search_reply w l1 version "https://www.exploit-db.com") as [x|e'] eqn:Hx;
    intros H; inversion H; subst.
  now exists l1.
Qed.

(** The log only grows, and [run_web_scrappers] adds to it searches for
    the version it was given only. *)
Lemma run_web_scrappers_log (version : string) (l : log) :
  exists added,
    snd (run_web_scrappers w version l) = l ++ added
    /\ forall v d, In (SearchForPages v d) added -> v = version.
Proof.
  rewrite run_web_scrappers_unfold.
  destruct (scrap_cve w version l) as [cve l1] eqn:Hcve.
  assert (Hl1 : exists added1,
             l1 = l ++ added1
             /\ forall v d, In (SearchForPages v d) added1 -> v = version).
  { rewrite scrap_cve_unfold in Hcve.
    destruct (search_reply w l version "https://www.cvedetails.com") as [[|u us]|e].
    - injection Hcve as _ <-. eexists; split; [reflexivity|].
      intros v d [H|[]]. now injection H.
    - rewrite find_suitable_cve_unfold in Hcve. injection Hcve as _ <-.
      exists [SearchForPages version "https://www.cvedetails.com"; HttpGet u].
      split; [now rewrite <- app_assoc|].
      intros v d [H|[H|[]]]; [now injection H | discriminate].
    - injection Hcve as _ <-. eexists; split; [reflexivity|].
      intros v d [H|[]]. now injection H. }
  destruct Hl1 as [added1 [-> Hadded1]].
  rewrite scrap_exploits_unfold. cbn [snd].
  exists (added1 ++ [SearchForPages version "https://www.exploit-db.com"]).
  split; [now rewrite <- app_assoc|].
  intros v d Hin. apply in_app_or in Hin. destruct Hin as [Hin|[H|[]]].
  - eapply Hadded1; eassumption.
  - now injection H.
Qed.

Lemma find_exploit_loop_log (todo : list ServiceRecord) :
  forall (done : list Vulnerability) (fuel : nat)
         (cve_urls : option (list string)) (exploit_urls : list string) (l : log),
    length todo <= fuel ->
    exists added,
      snd (find_exploit_loop w fuel (length done)
             (map Correlated done ++ map Scanned todo) cve_urls exploit_urls l)
      = l ++ added
      /\ forall v d, In (SearchForPages v d) added ->
                     v <> "Unknown"
                     /\ exists r, In r todo /\ service_version r = v.
Proof.
  induction todo as [|r todo IH]; intros done fuel cve_urls exploit_urls l Hfuel.
  - rewrite find_exploit_loop_end. cbn [snd].
    exists []. split; [symmetry; apply app_nil_r|].
    intros v d [].
  - destruct fuel as [|fuel]; [simpl in Hfuel; lia|].
    rewrite find_exploit_loop_round.
    destruct (String.eqb (service_version r) "Unknown") eqn:Hversion; cbn [negb].
    + destruct (IH (done ++ [correlate (Scanned r) cve_urls exploit_urls]) fuel
                   (drop_first cve_urls) (tl exploit_urls) l)
        as [added [Hlog Hadded]]; [simpl in Hfuel; lia|].
      exists added. split; [exact Hlog|].
      intros v d Hin. destruct (Hadded v d Hin) as [Hv [r0 [Hr0 Hr0v]]].
      split; [exact Hv|]. exists r0. split; [now right | exact Hr0v].
    + apply String.eqb_neq in Hversion.
      destruct (run_web_scrappers_log (service_version r) l)
        as [added1 [Hlog1 Hadded1]].
      destruct (run_web_scrappers w (service_version r) l)
        as [[[cve' exp']|e] l1]; cbn [snd] in Hlog1; subst l1.
      * destruct (IH (done ++ [correlate (Scanned r) cve' exp']) fuel
                     (drop_first cve') (tl exp') (l ++ added1))
          as [added [Hlog Hadded]]; [simpl in Hfuel; lia|].
        exists (added1 ++ added). split; [now rewrite Hlog, app_assoc|].
        intros v d Hin. apply in_app_or in Hin. destruct Hin as [Hin|Hin].
        -- apply Hadded1 in Hin. subst v. split; [exact Hversion|].
           exists r. split; [now left | reflexivity].
        -- destruct (Hadded v d Hin) as [Hv [r0 [Hr0 Hr0v]]].
           split; [exact Hv|]. exists r0. split; [now right | exact Hr0v].
      * exists added1. split; [reflexivity|].
        intros v d Hin. apply Hadded1 in Hin. subst v. split; [exact Hversion|].
        exists r. split; [now left | reflexivity].
Qed.

(** The loop over records of unknown version only. *)
Lemma find_exploit_loop_all_unknown (todo : list ServiceRecord) :
  forall (done : list Vulnerability) (fuel : nat)
         (cve_urls : option (list string)) (l : log),
    length todo <= fuel ->
    spent cve_urls ->
    Forall (fun r => service_version r = "Unknown") todo ->
    find_exploit_loop w fuel (length done)
      (map Correlated done ++ map Scanned todo) cve_urls [] l
    = (Returns (map Correlated (done ++ map unknown_links todo)), l).
Proof.
  induction todo as [|r todo IH]; intros done fuel cve_urls l Hfuel Hspent Hall.
  - apply find_exploit_loop_end.
  - destruct fuel as [|fuel]; [simpl in Hfuel; lia|].
    inversion Hall as [|r' todo' Hr Htodo]; subst.
    rewrite find_exploit_loop_round, Hr, String.eqb_refl. cbn [negb tl].
    assert (Hrow : correlate (Scanned r) cve_urls [] = unknown_links r).
    { unfold correlate, unknown_links. cbn.
      destruct Hspent as [->| ->]; reflexivity. }
    rewrite Hrow, IH.
    + cbn [map]. now rewrite <- app_assoc.
    + simpl in Hfuel. lia.
    + destruct Hspent as [->| ->]; [now left | now right].
    + exact Htodo.
Qed.

End MergerMore.

(** X8. [find_exploit] only adds to the log, and every search it adds is
    for the version of a scanned record other than ["Unknown"]: no search
    is ever issued for a record of unknown version. *)
Theorem find_exploit_never_searches_unknown
        (w : world) (scan_result : list ServiceRecord) (l : log) :
  exists added,
    snd (find_exploit w scan_result l) = l ++ added
    /\ forall version domain,
         In (SearchForPages version domain) added ->
         version <> "Unknown"
         /\ exists r, In r scan_result /\ service_version r = version.
Proof.
  unfold find_exploit.
  apply (find_exploit_loop_log w scan_result []).
  now rewrite length_map.
Qed.

(** X9. In the list that [find_exploit] returns, the record written for a
    scanned record of unknown version has ["Unknown"] as its advisory
    link. *)
Theorem unknown_version_has_unknown_advisory_link
        (w : world) (scan_result : list ServiceRecord) (l l' : log)
        (out : list entry) (i : nat) (r : ServiceRecord) :
  find_exploit w scan_result l = (Returns out, l') ->
  nth_error scan_result i = Some r ->
  service_version r = "Unknown" ->
  exists v, nth_error out i = Some (Correlated v) /\ cve_link v = "Unknown".
Proof.
  intros Hrun Hi Hversion.
  pose proof (find_exploit_spec w scan_result l) as Hspec.
  rewrite Hrun in Hspec. destruct Hspec as [vs [-> Hvs]].
  destruct (Forall2_at _ _ _ Hvs i r Hi) as [v [Hv [_ [_ Hlink]]]].
  exists v. split; [now rewrite nth_error_map, Hv | now apply Hlink].
Qed.

Lemma unknown_version_has_unknown_advisory_link_witness :
  exists v,
    nth_error [ Correlated (correlate (Scanned Scenario.apache) None
                              [ "https://www.exploit-db.com/exploits/50383";
                                "https://www.exploit-db.com/exploits/50406" ]);
                Correlated (correlate (Scanned Scenario.ssh_unknown) None
                              [ "https://www.exploit-db.com/exploits/50406" ]) ] 1
    = Some (Correlated v)
    /\ cve_link v = "Unknown".
Proof.
  apply (unknown_version_has_unknown_advisory_link
           Scenario.two_exploits [Scenario.apache; Scenario.ssh_unknown] []
           [ SearchForPages "2.4.49" "https://www.cvedetails.com";
             SearchForPages "2.4.49" "https://www.exploit-db.com" ]
           _ 1 Scenario.ssh_unknown); reflexivity.
Defined.

(** X10. When the site finder never returns more than one exploit page,
    the record written for a scanned record of unknown version has
    ["Unknown"] for both links. *)
Theorem unknown_version_has_unknown_links_with_single_exploits
        (w : world) (scan_result : list ServiceRecord) (l l' : log)
        (out : list entry) (i : nat) (r : ServiceRecord) :
  at_most_one_exploit w ->
  find_exploit w scan_result l = (Returns out, l') ->
  nth_error scan_result i = Some r ->
  service_version r = "Unknown" ->
  nth_error out i = Some (Correlated (unknown_links r)).
Proof.
  intros Hone Hrun Hi Hversion.
  apply (find_exploit_relates w
           (fun r v => service_version r = "Unknown" -> v = unknown_links r)
           (fun cve_urls exploit_urls => spent cve_urls /\ exploit_urls = []))
    in Hrun.
  - destruct Hrun as [vs [-> Hvs]].
    destruct (Forall2_at _ _ _ Hvs i r Hi) as [v [Hv Hlinks]].
    now rewrite nth_error_map, Hv, (Hlinks Hversion).
  - intros r0 cve_urls exploit_urls [Hspent ->] Hr0. split.
    + intros _. unfold correlate, unknown_links. cbn.
      destruct Hspent as [->| ->]; reflexivity.
    + split; [|reflexivity].
      destruct Hspent as [->| ->]; [now left | now right].
  - intros r0 l0 cve_urls exploit_urls l1 Hr0 Hsearch. split.
    + intros Heq. now elim Hr0.
    + split.
      * apply run_web_scrappers_returns in Hsearch.
        apply (spent_drop_first _ Hsearch).
      * apply run_web_scrappers_exploits in Hsearch.
        destruct Hsearch as [l2 Hreply]. apply Hone in Hreply.
        destruct exploit_urls as [|u [|u' us]]; [reflexivity | reflexivity|].
        simpl in Hreply. lia.
  - split; [now right | reflexivity].
Qed.

Lemma unknown_version_has_unknown_links_with_single_exploits_witness :
  nth_error
    [ Correlated {| v_port_number := 22; v_service_name := "ssh";
                    v_service_version := "OpenSSH_7.2";
                    cve_link := "https://www.cvedetails.com/cve/CVE-2016-6210/";
                    exploit_link := "https://www.exploit-db.com/exploits/40136" |};
      Correlated (unknown_links Scenario.ssh_unknown) ] 1
  = Some (Correlated (unknown_links Scenario.ssh_unknown)).
Proof.
  apply (unknown_version_has_unknown_links_with_single_exploits
           (Scenario.one_listing Samples.listing_html)
           [Scenario.openssh; Scenario.ssh_unknown] []
           [ SearchForPages "OpenSSH_7.2" "https://www.cvedetails.com";
             HttpGet "https://www.cvedetails.com/vulnerability-list/openssh.html";
             SearchForPages "OpenSSH_7.2" "https://www.exploit-db.com" ]
           _ 1 Scenario.ssh_unknown).
  - intros l0 version urls Hreply. simpl in Hreply.
    injection Hreply as <-. simpl. lia.
  - reflexivity.
  - reflexivity.
  - reflexivity.
Defined.

(** X11. In the list that [find_exploit] returns, the links of a record
    whose version is not ["Unknown"] are read off a search for that very
    version: the first advisory link and the first exploit link it
    returned, or ["Unknown"] where it returned none. *)
Theorem searched_record_gets_links_of_own_search
        (w : world) (scan_result : list ServiceRecord) (l l' : log)
        (out : list entry) (i : nat) (r : ServiceRecord) :
  find_exploit w scan_result l = (Returns out, l') ->
  nth_error scan_result i = Some r ->
  service_version r <> "Unknown" ->
  exists v, nth_error out i = Some (Correlated v)
            /\ links_of_own_search w r v.
Proof.
  intros Hrun Hi Hversion.
  apply (find_exploit_relates w
           (fun r v => service_version r <> "Unknown" -> links_of_own_search w r v)
           (fun _ _ => True))
    in Hrun.
  - destruct Hrun as [vs [-> Hvs]].
    destruct (Forall2_at _ _ _ Hvs i r Hi) as [v [Hv Hlinks]].
    exists v. split; [now rewrite nth_error_map, Hv | now apply Hlinks].
  - intros r0 cve_urls exploit_urls _ Hr0. split; [|exact I].
    intros Hne. now elim Hne.
  - intros r0 l0 cve_urls exploit_urls l1 Hr0 Hsearch. split; [|exact I].
    intros _. exists l0, l1, cve_urls, exploit_urls. now split.
  - exact I.
Qed.

Lemma searched_record_gets_links_of_own_search_witness :
  exists v,
    nth_error
      [ Correlated (unknown_links Scenario.ssh_unknown);
        Correlated {| v_port_number := 22; v_service_name := "ssh";
                      v_service_version := "OpenSSH_7.2";
                      cve_link := "https://www.cvedetails.com/cve/CVE-2016-6210/";
                      exploit_link := "https://www.exploit-db.com/exploits/40136" |} ] 1
    = Some (Correlated v)
    /\ links_of_own_search (Scenario.one_listing Samples.listing_html) Scenario.openssh v.
Proof.
  apply (searched_record_gets_links_of_own_search
           (Scenario.one_listing Samples.listing_html)
           [Scenario.ssh_unknown; Scenario.openssh] []
           [ SearchForPages "OpenSSH_7.2" "https://www.cvedetails.com";
             HttpGet "https://www.cvedetails.com/vulnerability-list/openssh.html";
             SearchForPages "OpenSSH_7.2" "https://www.exploit-db.com" ]
           _ 1 Scenario.openssh).
  - reflexivity.
  - reflexivity.
  - discriminate.
Defined.

(** X12. When every scanned record has the version ["Unknown"],
    [find_exploit] returns one record with both links ["Unknown"] per
    scanned record and leaves the log as it found it: no search and no
    fetch is issued. *)
Theorem find_exploit_all_unknown
        (w : world) (scan_result : list ServiceRecord) (l : log) :
  Forall (fun r => service_version r = "Unknown") scan_result ->
  find_exploit w scan_result l
  = (Returns (map (fun r => Correlated (unknown_links r)) scan_result), l).
Proof.
  intros Hall. unfold find_exploit.
  rewrite (find_exploit_loop_all_unknown w scan_result [] _ (Some []) l).
  - cbn [app]. now rewrite map_map.
  - now rewrite length_map.
  - now right.
  - exact Hall.
Qed.

Lemma find_exploit_all_unknown_witness :
  find_exploit Scenario.offline [Scenario.ssh_unknown; Scenario.ssh_unknown] []
  = (Returns [ Correlated (unknown_links Scenario.ssh_unknown);
               Correlated (unknown_links Scenario.ssh_unknown) ], []).
Proof.
  apply (find_exploit_all_unknown Scenario.offline
           [Scenario.ssh_unknown; Scenario.ssh_unknown] []).
  repeat constructor.
Defined.

(* ===================================================================== *)
(** ** Further properties: the executor object *)
(* ===================================================================== *)

Section ExecutorObject.

Lemma get_absent {V} (key : string) (d : PyDict.dict V) :
  ~ In key (PyDict.keys d) -> PyDict.get key d = None.
Proof.
  induction d as [|[k v] d IH]; intros Hnot; [reflexivity|].
  cbn [PyDict.get]. destruct (String.eqb k key) eqn:Hk.
  - apply String.eqb_eq in Hk. elim Hnot. now left.
  - apply IH. intros Hin. apply Hnot. now right.
Qed.

Lemma not_none_keys {V} (d : PyDict.dict (option V)) (key : string) :
  In key (PyDict.keys (not_none d)) -> In key (PyDict.keys d).
Proof.
  induction d as [|[k [v|]] d IH]; cbn; auto.
  intros [H|H]; auto.
Qed.

Lemma get_set_same {V} (key : string) (v : V) (d : PyDict.dict V) :
  PyDict.get key (PyDict.set key v d) = Some v.
Proof.
  induction d as [|[k v'] d IH]; cbn.
  - now rewrite String.eqb_refl.
  - destruct (String.eqb k key) eqn:Hk; cbn; now rewrite Hk.
Qed.

Lemma get_scanned (key : string) (found : PyDict.dict (list ServiceRecord)) :
  PyDict.get key (map (fun item => (fst item, map Scanned (snd item))) found)
  = option_map (map Scanned) (PyDict.get key found).
Proof.
  induction found as [|[k v] found IH]; [reflexivity|].
  cbn. destruct (String.eqb k key); [reflexivity | exact IH].
Qed.

Lemma add_columns_spec (cs : list Rich.Column) (t : Rich.Table) :
  fold_left Rich.add_column cs t
  = {| Rich.show_lines := Rich.show_lines t;
       Rich.columns := Rich.columns t ++ cs;
       Rich.rows := Rich.rows t |}.
Proof.
  revert t. induction cs as [|c cs IH]; intros t; cbn [fold_left].
  - rewrite app_nil_r. now destruct t.
  - rewrite IH. cbn. now rewrite <- app_assoc.
Qed.

Lemma add_rows_correlated (vs : list Vulnerability) (t : Rich.Table) :
  add_rows t (map Correlated vs)
  = Returns {| Rich.show_lines := Rich.show_lines t;
               Rich.columns := Rich.columns t;
               Rich.rows := Rich.rows t ++ map row_of vs |}.
Proof.
  revert t. induction vs as [|v vs IH]; intros t; cbn [map add_rows].
  - rewrite app_nil_r. now destruct t.
  - cbn [output_row Py.bind]. rewrite IH. cbn.
    now rewrite <- app_assoc.
Qed.

Lemma create_output_tb_correlated (self : executor) (vs : list Vulnerability) :
  PyDict.get "ports_services" (founded_vulnerabilities self)
  = Some (map Correlated vs) ->
  create_output_tb self
  = Returns {| _filtered_kw := _filtered_kw self;
               founded_vulnerabilities := founded_vulnerabilities self;
               output_table :=
                 {| Rich.show_lines := Rich.show_lines (output_table self);
                    Rich.columns := Rich.columns (output_table self) ++ output_columns;
                    Rich.rows := Rich.rows (output_table self) ++ map row_of vs |} |}.
Proof.
  intros Hget. unfold create_output_tb. rewrite Hget.
  rewrite add_columns_spec, add_rows_correlated. reflexivity.
Qed.

End ExecutorObject.

(** X13. What the setter of [filtered_kw] stores answers a lookup like
    the keyword arguments it was given, except that a key given with
    [None] is not there at all: looking it up is a [KeyError], as for a
    key that was never given. *)
Theorem filtered_kw_lookup (self : executor)
        (cli_kwargs : PyDict.dict (option string)) (key : string) :
  PyDict.unique_keys cli_kwargs ->
  PyDict.get key (filtered_kw (set_filtered_kw self cli_kwargs))
  = match PyDict.get key cli_kwargs with
    | Some (Some v) => Some v
    | Some None | None => None
    end.
Proof.
  unfold filtered_kw, set_filtered_kw, PyDict.unique_keys. cbn [_filtered_kw].
  induction cli_kwargs as [|[k v] items IH]; intros Hunique; [reflexivity|].
  cbn [PyDict.keys map fst] in Hunique. inversion Hunique as [|k' ks Hk Hitems]; subst.
  destruct v as [v|]; cbn [not_none PyDict.get];
    destruct (String.eqb k key) eqn:Hkey; try (now apply IH); [reflexivity|].
  apply String.eqb_eq in Hkey. subst key.
  apply get_absent. intros Hin. apply Hk. now apply not_none_keys.
Qed.

Lemma filtered_kw_lookup_witness :
  PyDict.get "port"
    (filtered_kw (set_filtered_kw __init__
                    [("host", Some "10.0.0.7"); ("port", None); ("speed", Some "fast")]))
  = None
  /\ PyDict.get "speed"
       (filtered_kw (set_filtered_kw __init__
                       [("host", Some "10.0.0.7"); ("port", None); ("speed", Some "fast")]))
     = Some "fast".
Proof.
  assert (Hunique : PyDict.unique_keys
                      [("host", Some "10.0.0.7"); ("port", None : option string);
                       ("speed", Some "fast")]).
  { unfold PyDict.unique_keys. cbn.
    repeat constructor; cbn; intuition discriminate. }
  split.
  - exact (filtered_kw_lookup __init__ _ "port" Hunique).
  - exact (filtered_kw_lookup __init__ _ "speed" Hunique).
Defined.

(** X14. Once every record under ["ports_services"] is a correlated one,
    [create_output_tb] does not raise: it adds the five columns after
    those the table has, and after the rows the table has one row per
    record, in order, made of the port number in decimal, the service
    name, the service version, the advisory link and the exploit link.
    Nothing else of the object changes. *)
Theorem create_output_tb_adds_one_row_per_record
        (self : executor) (vs : list Vulnerability) :
  PyDict.get "ports_services" (founded_vulnerabilities self)
  = Some (map Correlated vs) ->
  exists self',
    create_output_tb self = Returns self'
    /\ Rich.columns (output_table self')
       = Rich.columns (output_table self) ++ output_columns
    /\ Rich.rows (output_table self')
       = Rich.rows (output_table self)
           ++ map (fun v => [ str_of_int (v_port_number v); v_service_name v;
                              v_service_version v; cve_link v; exploit_link v ]) vs
    /\ founded_vulnerabilities self' = founded_vulnerabilities self
    /\ filtered_kw self' = filtered_kw self.
Proof.
  intros Hget. rewrite (create_output_tb_correlated _ _ Hget).
  eexists. split; [reflexivity|]. repeat split.
Qed.

Lemma create_output_tb_adds_one_row_per_record_witness :
  exists self',
    create_output_tb
      {| _filtered_kw := [];
         founded_vulnerabilities :=
           [("ports_services", [Correlated (unknown_links Scenario.ssh_unknown)])];
         output_table := output_table __init__ |}
    = Returns self'
    /\ Rich.rows (output_table self') = [["22"; "ssh"; "Unknown"; "Unknown"; "Unknown"]].
Proof.
  destruct (create_output_tb_adds_one_row_per_record
              {| _filtered_kw := [];
                 founded_vulnerabilities :=
                   [("ports_services", [Correlated (unknown_links Scenario.ssh_unknown)])];
                 output_table := output_table __init__ |}
              [unknown_links Scenario.ssh_unknown] eq_refl)
    as [self' [Hrun [_ [Hrows _]]]].
  exists self'. split; [exact Hrun | exact Hrows].
Defined.

Section Call.

Variable w : world.
Variable scanner : PyDict.dict string -> pyresult (PyDict.dict (list ServiceRecord)).
Variable console_print : Rich.Table -> pyresult unit.

Lemma find_exploit_method_scanned (self : executor)
      (scan_result : list ServiceRecord) (l : log) :
  PyDict.get "ports_services" (founded_vulnerabilities self)
  = Some (map Scanned scan_result) ->
  find_exploit_method w self l
  = match find_exploit w scan_result l with
    | (Returns out, l') =>
        (Returns {| _filtered_kw := _filtered_kw self;
                    founded_vulnerabilities :=
                      PyDict.set "ports_services" out (founded_vulnerabilities self);
                    output_table := output_table self |}, l')
    | (Raises e, l') => (Raises e, l')
    end.
Proof.
  intros Hget. unfold find_exploit_method, find_exploit, Net.bind, ret.
  rewrite Hget. reflexivity.
Qed.

Lemma call_unfold (self : executor) (l : log) :
  __call__ w scanner console_print self l
  = match scan_selected_device scanner self with
    | Returns self1 =>
        match find_exploit_method w self1 l with
        | (Returns self2, l') =>
            match create_output_tb self2 with
            | Returns self3 => (show_final_output console_print self3, l')
            | Raises e => (Raises e, l')
            end
        | (Raises e, l') => (Raises e, l')
        end
    | Raises e => (Raises e, l)
    end.
Proof.
  unfold __call__, Net.bind, lift, ret.
  destruct (scan_selected_device scanner self) as [self1|e]; [|reflexivity].
  destruct (find_exploit_method w self1 l) as [[self2|e] l']; [|reflexivity].
  destruct (create_output_tb self2) as [self3|e]; [|reflexivity].
  destruct (show_final_output console_print self3); reflexivity.
Qed.

End Call.

(** X15. The whole run. When the scanner returns a mapping with the
    records under ["ports_services"], the table that [__call__] hands to
    the console has the five columns after those it had, and after the
    rows it had one row per scanned record, in the order of the scan,
    that starts with the port number in decimal, the service name and
    the service version of that record and ends with the two links.
    [__call__] returns once the console has printed that table. It
    raises in two cases only: a search for one of the services raised,
    or the console raised on that table; the exception is handed on. *)
Theorem call_prints_one_row_per_scanned_record
        (w : world)
        (scanner : PyDict.dict string -> pyresult (PyDict.dict (list ServiceRecord)))
        (console_print : Rich.Table -> pyresult unit)
        (self : executor) (found : PyDict.dict (list ServiceRecord))
        (scan_result : list ServiceRecord) (l : log) :
  scanner (filtered_kw self) = Returns found ->
  PyDict.get "ports_services" found = Some scan_result ->
  match __call__ w scanner console_print self l with
  | (Returns table, _) =>
      lists_the_scan self scan_result table /\ console_print table = Returns tt
  | (Raises e, _) =>
      (exists r l0, In r scan_result /\ service_version r <> "Unknown"
                    /\ fst (run_web_scrappers w (service_version r) l0) = Raises e)
      \/ (exists table, lists_the_scan self scan_result table
                        /\ console_print table = Raises e)
  end.
Proof.
  intros Hscan Hget.
  rewrite call_unfold. unfold scan_selected_device. rewrite Hscan. cbn [Py.bind].
  rewrite (find_exploit_method_scanned w _ scan_result).
  2:{ cbn [founded_vulnerabilities]. now rewrite get_scanned, Hget. }
  pose proof (find_exploit_spec w scan_result l) as Hspec.
  destruct (find_exploit w scan_result l) as [[out|e] l']; [|now left].
  destruct Hspec as [vs [-> Hvs]].
  rewrite (create_output_tb_correlated _ vs).
  2:{ cbn [founded_vulnerabilities]. apply get_set_same. }
  unfold show_final_output. cbn [output_table].
  set (table := {| Rich.show_lines := Rich.show_lines (output_table self);
                   Rich.columns := Rich.columns (output_table self) ++ output_columns;
                   Rich.rows := Rich.rows (output_table self) ++ map row_of vs |}).
  assert (Htable : lists_the_scan self scan_result table).
  { split; [reflexivity|].
    exists (map row_of vs). split; [reflexivity|].
    clear - Hvs. induction Hvs as [|r v rs vs [[Hp [Hn Hv]] _] _ IH]; cbn [map].
    - constructor.
    - constructor; [|exact IH].
      exists (cve_link v), (exploit_link v). unfold row_of.
      now rewrite Hp, Hn, Hv. }
  destruct (console_print table) as [[]|e] eqn:Hprint; cbn [Py.bind].
  - now split.
  - right. now exists table.
Qed.

Lemma call_prints_one_row_per_scanned_record_witness :
  fst (__call__ (Scenario.one_listing Samples.apache_listing_html)
         (fun _ => Returns [("target", []); ("ports_services", [Scenario.apache])])
         lenient_console __init__ [])
  = Returns {| Rich.show_lines := true;
               Rich.columns := output_columns;
               Rich.rows := [[ "80"; "apache"; "2.4.49";
                               "https://www.cvedetails.com/cve/CVE-2021-41773/";
                               "https://www.exploit-db.com/exploits/40136" ]] |}
  /\ match __call__ (Scenario.one_listing Samples.apache_listing_html)
             (fun _ => Returns [("target", []); ("ports_services", [Scenario.apache])])
             lenient_console __init__ [] with
     | (Returns table, _) =>
         lists_the_scan __init__ [Scenario.apache] table
         /\ lenient_console table = Returns tt
     | (Raises e, _) =>
         (exists r l0, In r [Scenario.apache] /\ service_version r <> "Unknown"
                       /\ fst (run_web_scrappers
                                 (Scenario.one_listing Samples.apache_listing_html)
                                 (service_version r) l0) = Raises e)
         \/ (exists table, lists_the_scan __init__ [Scenario.apache] table
                           /\ lenient_console table = Raises e)
     end.
Proof.
  split; [vm_compute; reflexivity|].
  apply (call_prints_one_row_per_scanned_record
           (Scenario.one_listing Samples.apache_listing_html)
           (fun _ => Returns [("target", []); ("ports_services", [Scenario.apache])])
           lenient_console __init__
           [("target", []); ("ports_services", [Scenario.apache])]
           [Scenario.apache] []); reflexivity.
Defined.

(** A service name that holds a closing tag of console markup: the
    table is filled, and the console raises on it. *)
Example call_raises_what_the_console_raises :
  __call__ Scenario.two_exploits
    (fun _ => Returns [("ports_services",
                        [{| port_number := 21; service_name := "[/x]";
                            service_version := "Unknown" |}])])
    strict_console __init__ []
  = (Raises (MarkupError "closing tag has nothing to close"), []).
Proof. vm_compute. reflexivity. Qed.

(** X16. No search and no fetch is issued unless the scanner has returned
    a mapping with the key ["ports_services"]: when the scanner raises,
    [__call__] raises the same, and when the key is missing it raises
    [KeyError]; in both cases the log is left as it was. *)
Theorem call_stops_before_the_network
        (w : world)
        (scanner : PyDict.dict string -> pyresult (PyDict.dict (list ServiceRecord)))
        (console_print : Rich.Table -> pyresult unit)
        (self : executor) (l : log) :
  (forall e, scanner (filtered_kw self) = Raises e ->
             __call__ w scanner console_print self l = (Raises e, l))
  /\ (forall found, scanner (filtered_kw self) = Returns found ->
                    PyDict.get "ports_services" found = None ->
                    __call__ w scanner console_print self l = (Raises KeyError, l)).
Proof.
  split.
  - intros e Hscan. rewrite call_unfold. unfold scan_selected_device.
    now rewrite Hscan.
  - intros found Hscan Hget. rewrite call_unfold. unfold scan_selected_device.
    rewrite Hscan. cbn [Py.bind].
    unfold find_exploit_method. cbn [founded_vulnerabilities].
    now rewrite get_scanned, Hget.
Qed.

Lemma call_stops_before_the_network_witness :
  __call__ Scenario.two_exploits (fun _ => Returns [("target", [])])
           lenient_console __init__ []
  = (Raises KeyError, [])
  /\ __call__ Scenario.two_exploits (fun _ => Raises (ClientError "no route to host"))
              lenient_console __init__ []
     = (Raises (ClientError "no route to host"), []).
Proof.
  split.
  - apply (proj2 (call_stops_before_the_network Scenario.two_exploits
                    (fun _ => Returns [("target", [])]) lenient_console __init__ [])
                 [("target", [])]); reflexivity.
  - apply (proj1 (call_stops_before_the_network Scenario.two_exploits
                    (fun _ => Raises (ClientError "no route to host"))
                    lenient_console __init__ [])).
    reflexivity.
Defined.

Section FailFast.

Variable w : world.

Lemma find_exploit_loop_stops_at_failure (pre : list ServiceRecord) :
  forall (done : list Vulnerability) (fuel : nat)
         (r : ServiceRecord) (post : list ServiceRecord)
         (cve_urls : option (list string)) (exploit_urls : list string)
         (l l1 : log) (e : exn),
    length (pre ++ r :: post) <= fuel ->
    Forall (fun r0 => service_version r0 = "Unknown") pre ->
    service_version r <> "Unknown" ->
    run_web_scrappers w (service_version r) l = (Raises e, l1) ->
    find_exploit_loop w fuel (length done)
      (map Correlated done ++ map Scanned (pre ++ r :: post))
      cve_urls exploit_urls l
    = (Raises e, l1).
Proof.
  induction pre as [|r0 pre IH];
    intros done fuel r post cve_urls exploit_urls l l1 e Hfuel Hpre Hr Hsearch;
    (destruct fuel as [|fuel]; [simpl in Hfuel; lia|]);
    cbn [app]; rewrite find_exploit_loop_round.
  - apply String.eqb_neq in Hr. rewrite Hr. cbn [negb]. now rewrite Hsearch.
  - inversion Hpre as [|r0' pre' Hr0 Hpre']; subst.
    rewrite Hr0, String.eqb_refl. cbn [negb].
    apply IH; try assumption. simpl in Hfuel. lia.
Qed.

End FailFast.

(** X17. [create_output_tb] adds to the table it finds: run a second time
    on the same object it adds the five columns again and every row
    again. *)
Theorem create_output_tb_twice_doubles_the_table
        (self : executor) (vs : list Vulnerability) :
  PyDict.get "ports_services" (founded_vulnerabilities self)
  = Some (map Correlated vs) ->
  exists self' self'',
    create_output_tb self = Returns self'
    /\ create_output_tb self' = Returns self''
    /\ Rich.columns (output_table self'')
       = Rich.columns (output_table self) ++ output_columns ++ output_columns
    /\ Rich.rows (output_table self'')
       = Rich.rows (output_table self) ++ map row_of vs ++ map row_of vs.
Proof.
  intros Hget.
  rewrite (create_output_tb_correlated _ _ Hget).
  eexists. eexists. split; [reflexivity|].
  rewrite (create_output_tb_correlated _ vs); [|exact Hget].
  cbn. split; [reflexivity|]. now rewrite <- !app_assoc.
Qed.

Lemma create_output_tb_twice_doubles_the_table_witness :
  exists self' self'',
    create_output_tb
      {| _filtered_kw := [];
         founded_vulnerabilities :=
           [("ports_services", [Correlated (unknown_links Scenario.ssh_unknown)])];
         output_table := output_table __init__ |}
    = Returns self'
    /\ create_output_tb self' = Returns self''
    /\ length (Rich.columns (output_table self'')) = 10
    /\ length (Rich.rows (output_table self'')) = 2.
Proof.
  destruct (create_output_tb_twice_doubles_the_table
              {| _filtered_kw := [];
                 founded_vulnerabilities :=
                   [("ports_services", [Correlated (unknown_links Scenario.ssh_unknown)])];
                 output_table := output_table __init__ |}
              [unknown_links Scenario.ssh_unknown] eq_refl)
    as [self' [self'' [H1 [H2 [Hcols Hrows]]]]].
  exists self', self''. split; [exact H1|]. split; [exact H2|].
  rewrite Hcols, Hrows. split; reflexivity.
Defined.

(** X18. A search that raises ends the merge at once. When the records
    before a record are all of unknown version and the search for that
    record raises, [find_exploit] raises the same exception, and the log
    is the one that search left: the records after it are not searched. *)
Theorem find_exploit_stops_at_first_failure
        (w : world) (pre : list ServiceRecord) (r : ServiceRecord)
        (post : list ServiceRecord) (l l1 : log) (e : exn) :
  Forall (fun r0 => service_version r0 = "Unknown") pre ->
  service_version r <> "Unknown" ->
  run_web_scrappers w (service_version r) l = (Raises e, l1) ->
  find_exploit w (pre ++ r :: post) l = (Raises e, l1).
Proof.
  intros Hpre Hr Hsearch. unfold find_exploit.
  apply (find_exploit_loop_stops_at_failure w pre []); try assumption.
  now rewrite length_map.
Qed.

Lemma find_exploit_stops_at_first_failure_witness :
  find_exploit Scenario.offline
    [Scenario.ssh_unknown; Scenario.openssh; Scenario.apache] []
  = (Raises (ClientError "connection refused"),
     [ SearchForPages "OpenSSH_7.2" "https://www.cvedetails.com";
       HttpGet "https://www.cvedetails.com/vulnerability-list/openssh.html";
       SearchForPages "OpenSSH_7.2" "https://www.exploit-db.com" ]).
Proof.
  apply (find_exploit_stops_at_first_failure Scenario.offline
           [Scenario.ssh_unknown] Scenario.openssh [Scenario.apache]).
  - repeat constructor.
  - discriminate.
  - reflexivity.
Defined.
